(** * Netlib: a shallow embedding of [netlib::network::tcp]

    The header [c++/server/include/Netlib.hpp] wraps the BSD socket calls in
    two classes, [tcp::socket] and [tcp::server].  Every method is embedded
    here as a function in a small state-and-exception monad.  The operating
    system is not part of the program: it is an oracle that answers each
    call from the history of all earlier calls, and every call the program
    makes is appended, with its answer, to that history.

    Integers are in [Z], with the conversions between [int], [unsigned int]
    and [std::size_t] written out where the code converts.  A descriptor of
    [-1] is the socket's mark for unopened. *)

From Stdlib Require Import ZArith List String Ascii Bool Lia DecimalString.
Import ListNotations.
Set Warnings "-register-all".
Open Scope Z_scope.

(** ** Machine integers and C strings *)

Definition to_int (z : Z) : Z := (z + 2 ^ 31) mod 2 ^ 32 - 2 ^ 31.
Definition to_unsigned (z : Z) : Z := z mod 2 ^ 32.
Definition to_size_t (z : Z) : Z := z mod 2 ^ 64.

Definition INT_MIN : Z := - 2 ^ 31.
Definition INT_MAX : Z := 2 ^ 31 - 1.

Definition NUL : ascii := Ascii.zero.
Definition LF : ascii := "010"%char.
Definition nl : string := String LF EmptyString.

Definition is_NUL (c : ascii) : bool := Ascii.eqb c NUL.

(** [std::vector<char>(message.begin(), message.end())] and back. *)
Definition chars (s : string) : list ascii := list_ascii_of_string s.
Definition str (l : list ascii) : string := string_of_list_ascii l.

(** [std::to_string] on an [unsigned int]. *)
Definition to_string (n : Z) : string := NilEmpty.string_of_uint (N.to_uint (Z.to_N n)).

(** ** Exceptions and outcomes *)

Inductive exn_kind : Type :=
| logic_error
| runtime_error
| invalid_argument
| out_of_range.

Record exn : Type := mk_exn { kind : exn_kind; what : string }.

(** A call either returns, leaves by an exception, ends the process through
    [std::terminate] (an exception leaving a destructor), or has no defined
    behaviour at all. *)
Inductive outcome (A : Type) : Type :=
| Ok (a : A)
| Throw (e : exn)
| Terminate
| Undefined.
Arguments Ok {A} a.
Arguments Throw {A} e.
Arguments Terminate {A}.
Arguments Undefined {A}.

(** ** The operating system boundary *)

Definition sockaddr : Type := list ascii.

Inductive addrinfo : Type := mk_addrinfo {
  ai_flags : Z;
  ai_family : Z;
  ai_socktype : Z;
  ai_protocol : Z;
  ai_addrlen : Z;
  ai_addr : option sockaddr;
  ai_next : option addrinfo
}.

(** The value of [addrinfo_({0})]. *)
Definition addrinfo_zero : addrinfo :=
  mk_addrinfo 0 0 0 0 0 None None.

Inductive call : Type :=
| sys_getaddrinfo (node service : string) (hints_family hints_socktype : Z)
| sys_socket (domain type protocol : Z)
| sys_setsockopt (fd level optname optval : Z)
| sys_bind (fd : Z) (addr : option sockaddr) (addrlen : Z)
| sys_listen (fd backlog : Z)
| sys_accept (fd : Z)
| sys_getnameinfo (addr : sockaddr) (addrlen flags : Z)
| sys_connect (fd : Z) (addr : option sockaddr) (addrlen : Z)
| sys_send (fd : Z) (buf : list ascii) (len flags : Z)
| sys_recv (fd : Z) (len flags : Z)
| sys_close (fd : Z)
| std_cerr (text : string)
| std_cout (text : string).

(** What a call hands back: its return value and whatever it wrote through
    its out-parameters.  A call reads only the fields it has. *)
Record reply : Type := mk_reply {
  ret : Z;
  r_infos : option addrinfo;
  r_addr : sockaddr;
  r_addrlen : Z;
  r_host : string;
  r_serv : string;
  r_data : list ascii
}.

Definition event : Type := (call * reply)%type.
Definition trace : Type := list event.

(** The constants of the system headers and the behaviour of the system. *)
Record platform : Type := mk_platform {
  AF_UNSPEC : Z;
  SOCK_STREAM : Z;
  SOL_SOCKET : Z;
  SO_REUSEADDR : Z;
  NI_NUMERICHOST : Z;
  NI_NUMERICSERV : Z;
  SOMAXCONN : Z;
  os : trace -> call -> reply
}.

(** ** The monad *)

Definition M (S A : Type) : Type := S -> trace -> outcome A * S * trace.

Definition mret {S A} (a : A) : M S A := fun s w => (Ok a, s, w).

Definition mbind {S A B} (m : M S A) (k : A -> M S B) : M S B :=
  fun s w =>
    match m s w with
    | (Ok a, s', w') => k a s' w'
    | (Throw e, s', w') => (Throw e, s', w')
    | (Terminate, s', w') => (Terminate, s', w')
    | (Undefined, s', w') => (Undefined, s', w')
    end.

Declare Scope monad_scope.
Delimit Scope monad_scope with monad.
Notation "x <- m ;; k" := (mbind m (fun x => k))
  (at level 61, m at next level, right associativity) : monad_scope.
Notation "m ;; k" := (mbind m (fun _ => k))
  (at level 61, right associativity) : monad_scope.
Open Scope monad_scope.

Definition throw {S A} (k : exn_kind) (msg : string) : M S A :=
  fun s w => (Throw (mk_exn k msg), s, w).
Definition undefined {S A} : M S A := fun s w => (Undefined, s, w).
Definition get {S} : M S S := fun s w => (Ok s, s, w).
Definition put {S} (s : S) : M S unit := fun _ w => (Ok tt, s, w).
Definition modify {S} (f : S -> S) : M S unit := fun s w => (Ok tt, f s, w).

(** A computation that touches neither the object nor the system. *)
Definition pure {S A} (o : outcome A) : M S A := fun s w => (o, s, w).

(** The event call [c] leaves in the history when made after [w]. *)
Definition the (c : call) (P : platform) (w : trace) : event := (c, os P w c).

(** One call to the system: ask the oracle, log the call with its answer. *)
Definition syscall {S} (P : platform) (c : call) : M S reply :=
  fun s w => (Ok (os P w c), s, w ++ [the c P w]).

(** Run a method of a member object inside a method of its owner. *)
Definition zoom {S T A} (proj : S -> T) (inj : T -> S -> S) (m : M T A) : M S A :=
  fun s w => let '(o, t, w') := m (proj s) w in (o, inj t s, w').

(** A local object: [body] runs on it, and when the scope is left, normally
    or by an exception, its destructor [dtor] runs.  Destructors are
    [noexcept], so an exception leaving [dtor] ends the process. *)
Definition scoped {S T A} (obj : T) (dtor : M T unit) (body : M T A) : M S A :=
  fun s w =>
    match body obj w with
    | (Ok a, obj', w') =>
        match dtor obj' w' with
        | (Ok _, _, w'') => (Ok a, s, w'')
        | (Throw _, _, w'') => (Terminate, s, w'')
        | (Terminate, _, w'') => (Terminate, s, w'')
        | (Undefined, _, w'') => (Undefined, s, w'')
        end
    | (Throw e, obj', w') =>
        match dtor obj' w' with
        | (Ok _, _, w'') => (Throw e, s, w'')
        | (Throw _, _, w'') => (Terminate, s, w'')
        | (Terminate, _, w'') => (Terminate, s, w'')
        | (Undefined, _, w'') => (Undefined, s, w'')
        end
    | (Terminate, _, w') => (Terminate, s, w')
    | (Undefined, _, w') => (Undefined, s, w')
    end.

(** ** [std::stoi] *)

Definition isspace (c : ascii) : bool :=
  let n := nat_of_ascii c in
  (Nat.eqb n 32 || (Nat.leb 9 n && Nat.leb n 13))%bool.

Definition digit_of (c : ascii) : option Z :=
  let n := Z.of_nat (nat_of_ascii c) in
  if (48 <=? n) && (n <=? 57) then Some (n - 48) else None.

Fixpoint skip_space (l : list ascii) : list ascii :=
  match l with
  | c :: l' => if isspace c then skip_space l' else l
  | [] => []
  end.

(** The digits at the front of [l], read in base ten onto [acc]. *)
Fixpoint read_digits (acc : Z) (l : list ascii) : Z :=
  match l with
  | c :: l' =>
      match digit_of c with
      | Some d => read_digits (10 * acc + d) l'
      | None => acc
      end
  | [] => acc
  end.

Definition starts_with_digit (l : list ascii) : bool :=
  match l with
  | c :: _ => match digit_of c with Some _ => true | None => false end
  | [] => false
  end.

Definition stoi (s : string) : outcome Z :=
  let l := skip_space (chars s) in
  let '(neg, body) :=
    match l with
    | "-"%char :: l' => (true, l')
    | "+"%char :: l' => (false, l')
    | _ => (false, l)
    end in
  if negb (starts_with_digit body) then Throw (mk_exn invalid_argument "stoi")
  else
    let v := if neg then - read_digits 0 body else read_digits 0 body in
    if (v <? INT_MIN) || (INT_MAX <? v) then Throw (mk_exn out_of_range "stoi")
    else Ok v.

(** ** [tools] *)

Module tools.
Definition BACKLOG : Z := 30.
Definition BUFFER_SIZE : Z := 8096.
End tools.

(** ** [tcp::socket] *)

Module socket.

Record t : Type := mk {
  fd_ : Z;
  host_ : string;
  port_ : Z;
  addrinfo_ : addrinfo;
  v_addrinfo_ : addrinfo;
  is_socket_bound_ : bool
}.

Definition set_fd (v : Z) (s : t) : t :=
  mk v (host_ s) (port_ s) (addrinfo_ s) (v_addrinfo_ s) (is_socket_bound_ s).
Definition set_host (v : string) (s : t) : t :=
  mk (fd_ s) v (port_ s) (addrinfo_ s) (v_addrinfo_ s) (is_socket_bound_ s).
Definition set_port (v : Z) (s : t) : t :=
  mk (fd_ s) (host_ s) v (addrinfo_ s) (v_addrinfo_ s) (is_socket_bound_ s).
Definition set_addrinfo (v : addrinfo) (s : t) : t :=
  mk (fd_ s) (host_ s) (port_ s) v (v_addrinfo_ s) (is_socket_bound_ s).
Definition set_v_addrinfo (v : addrinfo) (s : t) : t :=
  mk (fd_ s) (host_ s) (port_ s) (addrinfo_ s) v (is_socket_bound_ s).
Definition set_is_socket_bound (v : bool) (s : t) : t :=
  mk (fd_ s) (host_ s) (port_ s) (addrinfo_ s) (v_addrinfo_ s) v.

(** [socket(void)] *)
Definition ctor : t :=
  mk (-1) "127.0.0.1" 12345 addrinfo_zero addrinfo_zero false.

(** [socket(int fd, const std::string &host, unsigned int port)] *)
Definition ctor_fd (fd : Z) (host : string) (port : Z) : t :=
  mk fd host port addrinfo_zero addrinfo_zero false.

Definition get_fd (s : t) : Z := fd_ s.
Definition get_host (s : t) : string := host_ s.
Definition get_port (s : t) : Z := to_int (port_ s).
Definition is_socket_bound (s : t) : bool := is_socket_bound_ s.

Section methods.
Variable P : platform.

Definition get_addr_info : M t unit :=
  s <- get ;;
  r <- syscall P (sys_getaddrinfo (host_ s) (to_string (port_ s))
                    (AF_UNSPEC P) (SOCK_STREAM P)) ;;
  if negb (ret r =? 0) then
    throw runtime_error "tcp::socket::get_addr_info: getaddrinfo() failed."
  else
    match r_infos r with
    | Some infos => modify (set_addrinfo infos)
    | None => mret tt
    end.

(** The [for] loop of [create_socket], started at node [p]. *)
Fixpoint try_candidates (p : addrinfo) : M t unit :=
  match p with
  | mk_addrinfo _ fam typ proto _ _ next =>
      r <- syscall P (sys_socket fam typ proto) ;;
      modify (set_fd (ret r)) ;;
      if ret r =? -1 then
        syscall P (std_cerr "failed to create socket ...") ;;
        match next with
        | Some q => try_candidates q
        | None => mret tt
        end
      else modify (set_v_addrinfo p)
  end.

Definition create_socket : M t unit :=
  s <- get ;;
  if negb (fd_ s =? -1) then mret tt
  else
    try_candidates (addrinfo_ s) ;;
    s' <- get ;;
    if fd_ s' =? -1 then
      throw runtime_error "tcp::socket::create_socket: socket failed()."
    else mret tt.

Definition bind (host : string) (port : Z) : M t unit :=
  let yes := 1 in
  modify (set_host host) ;;
  modify (set_port port) ;;
  get_addr_info ;;
  create_socket ;;
  s <- get ;;
  r <- syscall P (sys_setsockopt (fd_ s) (SOL_SOCKET P) (SO_REUSEADDR P) yes) ;;
  if ret r =? -1 then
    throw runtime_error "tcp::socket::bind: setsockopt() failed."
  else
    r' <- syscall P (sys_bind (fd_ s) (ai_addr (v_addrinfo_ s))
                       (ai_addrlen (v_addrinfo_ s))) ;;
    if ret r' =? -1 then
      throw runtime_error "tcp::socket::bind: bind() failed."
    else modify (set_is_socket_bound true).

Definition listen_warning : string :=
  "tcp::socket::listen: Param backlog greater than SOMAXCONN." ++ nl ++
  "Please refer to the value in /proc/sys/net/core/somaxconn. " ++
  "Param backlog will be truncated.".

Definition listen (backlog : Z) : M t unit :=
  s <- get ;;
  if negb (is_socket_bound_ s) then
    throw logic_error
      ("tcp::socket::listen: Socket must be bound before listenning for " ++
       "incoming connections.")
  else
    (if to_unsigned (SOMAXCONN P) <? backlog then
       syscall P (std_cerr listen_warning) ;; mret tt
     else mret tt) ;;
    r <- syscall P (sys_listen (fd_ s) (to_int backlog)) ;;
    if ret r =? -1 then
      throw runtime_error "tcp::socket::listen: listen() failed."
    else mret tt.

Definition accept : M t t :=
  s <- get ;;
  r <- syscall P (sys_accept (fd_ s)) ;;
  let new_fd := ret r in
  if new_fd =? -1 then
    throw runtime_error "tcp::socket::accpet: accept() failed."
  else
    r' <- syscall P (sys_getnameinfo (r_addr r) (r_addrlen r)
                       (Z.lor (NI_NUMERICHOST P) (NI_NUMERICSERV P))) ;;
    if negb (ret r' =? 0) then
      throw runtime_error "tcp::socket::accept: getnameinfo() failed."
    else
      port <- pure (stoi (r_serv r')) ;;
      mret (ctor_fd new_fd (r_host r') (to_unsigned port)).

Definition connect (host : string) (port : Z) : M t unit :=
  s <- get ;;
  if is_socket_bound_ s then
    throw logic_error
      ("tcp::socket::connect: Trying to connect a socket bound on port: " ++
       to_string (port_ s) ++
       ". Invalid operation for a socket planned for a server application.")
  else
    modify (set_host host) ;;
    modify (set_port port) ;;
    get_addr_info ;;
    create_socket ;;
    s' <- get ;;
    r <- syscall P (sys_connect (fd_ s') (ai_addr (v_addrinfo_ s'))
                      (ai_addrlen (v_addrinfo_ s'))) ;;
    if ret r =? -1 then
      throw runtime_error "tcp::socket::connect: connect() failed."
    else mret tt.

(** [send(const std::vector<char> &message, std::size_t message_len)].
    The system reads [message_len] bytes from the vector's storage, which
    holds no more than [message.size()]. *)
Definition send (message : list ascii) (message_len : Z) : M t Z :=
  s <- get ;;
  if fd_ s =? -1 then
    throw logic_error
      ("tcp::socket::send: Invalid operation. Trying to send data on a non " ++
       "connected socket.")
  else if Z.of_nat (List.length message) <? message_len then undefined
  else
    r <- syscall P (sys_send (fd_ s) message message_len 0) ;;
    let res := to_size_t (ret r) in
    if res =? to_size_t (-1) then
      throw runtime_error "tcp::socket::send: send() failed."
    else mret res.

(** [send(const std::string &message)] *)
Definition send_string (message : string) : M t Z :=
  send (chars message) (Z.of_nat (String.length message)).

(** The buffer after [::recv] answered [r]: the bytes delivered sit at the
    front, the rest is as it was.  A conforming system delivers exactly
    [ret r] bytes and never more than it was asked for. *)
Definition recv_into (buffer : list ascii) (r : reply) : list ascii :=
  let k := Nat.min (Z.to_nat (ret r))
             (Nat.min (List.length buffer) (List.length (r_data r))) in
  firstn k (r_data r) ++ skipn k buffer.

Definition close : M t unit :=
  s <- get ;;
  (if negb (fd_ s =? -1) then
     r <- syscall P (sys_close (fd_ s)) ;;
     if ret r =? -1 then
       throw runtime_error "tcp::socket::close: close() failed."
     else mret tt
   else mret tt) ;;
  modify (set_fd (-1)).

Definition receive (size_to_read : Z) : M t (list ascii) :=
  s <- get ;;
  if fd_ s =? -1 then
    throw logic_error
      ("tcp::socket::send: Invalid operation. Trying to receive data on a " ++
       "non connected socket.")
  else
    let buffer := repeat NUL (Z.to_nat size_to_read) in
    r <- syscall P (sys_recv (fd_ s) size_to_read 0) ;;
    let buffer := recv_into buffer r in
    let bytes_read := to_size_t (ret r) in
    (if bytes_read =? to_size_t (-1) then
       throw runtime_error "tcp::socket::receive: recv() failed."
     else if bytes_read =? 0 then
       syscall P (std_cout ("Connection closed by peer." ++ nl)) ;;
       close
     else mret tt) ;;
    mret buffer.

(** [~socket(void)] *)
Definition dtor : M t unit := close.

End methods.
End socket.

(** ** [tcp::server] *)

(** [std::string cmd(rcv.data())]: the bytes before the first NUL.  Reading a
    buffer that holds no NUL runs past its end. *)
Fixpoint c_str (l : list ascii) : option (list ascii) :=
  match l with
  | [] => None
  | c :: l' => if is_NUL c then Some [] else option_map (cons c) (c_str l')
  end.

(** [cmd.erase(cmd.end() - 1)]; there is no such position in an empty string. *)
Definition erase_last (l : list ascii) : option (list ascii) :=
  match l with
  | [] => None
  | _ :: _ => Some (removelast l)
  end.

Definition of_option {S A} (o : option A) : M S A :=
  match o with
  | Some a => mret a
  | None => undefined
  end.

Module server.

(** [std::function<void(const std::string &, socket &client)>]: user code,
    free to act on the client socket and on the system. *)
Definition callback : Type := string -> M socket.t unit.

Record t : Type := mk {
  socket_ : socket.t;
  is_running_ : bool;
  callback_ : option callback
}.

Definition set_socket (v : socket.t) (s : t) : t :=
  mk v (is_running_ s) (callback_ s).
Definition set_is_running (v : bool) (s : t) : t :=
  mk (socket_ s) v (callback_ s).
Definition set_callback (v : option callback) (s : t) : t :=
  mk (socket_ s) (is_running_ s) v.

(** [server(void)] *)
Definition ctor : t := mk socket.ctor false None.

Definition on_socket {A} (m : M socket.t A) : M t A :=
  zoom socket_ set_socket m.

Definition on_accept (cb : option callback) : M t unit :=
  modify (set_callback cb).

Section methods.
Variable P : platform.

(** What [process] does with the accepted [client] while it is in scope.
    The socket [accept] returns is built in place as [client], with no
    temporary copy in between. *)
Definition serve (cb : option callback) : M socket.t unit :=
  rcv <- socket.receive P tools.BUFFER_SIZE ;;
  cmd <- of_option (c_str rcv) ;;
  let response := "Executing command ["%string in
  cmd <- of_option (erase_last cmd) ;;
  let response := (response ++ str cmd)%string in
  let response := (response ++ ("] ..." ++ nl))%string in
  socket.send_string P response ;;
  match cb with
  | Some f => f (str cmd)
  | None => mret tt
  end.

Definition process : M t unit :=
  client <- on_socket (socket.accept P) ;;
  srv <- get ;;
  scoped client (socket.dtor P) (serve (callback_ srv)).

Definition run (host : string) (port : Z) : M t unit :=
  srv <- get ;;
  if is_running_ srv then
    throw runtime_error "tcp::server::run: Server is aldready running."
  else
    on_socket (socket.bind P host port) ;;
    on_socket (socket.listen P tools.BACKLOG) ;;
    modify (set_is_running true) ;;
    process.

Definition stop : M t unit :=
  srv <- get ;;
  if negb (is_running_ srv) then mret tt
  else
    on_socket (socket.close P) ;;
    modify (set_is_running false).

(** [~server(void)] *)
Definition dtor : M t unit := stop.

End methods.
End server.

(** ** A system to run the code against

    [sim] is a small deterministic system: descriptors are handed out from
    3 upwards, the one peer sends [peer_bytes] once and then closes, and
    the calls listed in [faults] fail. *)

Inductive call_name : Type :=
| n_getaddrinfo | n_socket | n_setsockopt | n_bind | n_listen | n_accept
| n_getnameinfo | n_connect | n_send | n_recv | n_close | n_cerr | n_cout.

Definition name_of (c : call) : call_name :=
  match c with
  | sys_getaddrinfo _ _ _ _ => n_getaddrinfo
  | sys_socket _ _ _ => n_socket
  | sys_setsockopt _ _ _ _ => n_setsockopt
  | sys_bind _ _ _ => n_bind
  | sys_listen _ _ => n_listen
  | sys_accept _ => n_accept
  | sys_getnameinfo _ _ _ => n_getnameinfo
  | sys_connect _ _ _ => n_connect
  | sys_send _ _ _ _ => n_send
  | sys_recv _ _ _ => n_recv
  | sys_close _ => n_close
  | std_cerr _ => n_cerr
  | std_cout _ => n_cout
  end.

Definition call_name_eqb (a b : call_name) : bool :=
  match a, b with
  | n_getaddrinfo, n_getaddrinfo | n_socket, n_socket
  | n_setsockopt, n_setsockopt | n_bind, n_bind | n_listen, n_listen
  | n_accept, n_accept | n_getnameinfo, n_getnameinfo | n_connect, n_connect
  | n_send, n_send | n_recv, n_recv | n_close, n_close | n_cerr, n_cerr
  | n_cout, n_cout => true
  | _, _ => false
  end.

Definition count_calls (n : call_name) (w : trace) : nat :=
  List.length (filter (fun e => call_name_eqb (name_of (fst e)) n) w).

Definition plain (v : Z) : reply := mk_reply v None [] 0 "" "" [].

Definition loopback : addrinfo :=
  mk_addrinfo 0 2 1 6 16 (Some (chars "127.0.0.1:12345")) None.

Definition sim_os (peer_bytes : list ascii) (faults : list call_name)
    (w : trace) (c : call) : reply :=
  if existsb (call_name_eqb (name_of c)) faults then plain (-1)
  else
    match c with
    | sys_getaddrinfo _ _ _ _ => mk_reply 0 (Some loopback) [] 0 "" "" []
    | sys_socket _ _ _ =>
        plain (3 + Z.of_nat (count_calls n_socket w + count_calls n_accept w))
    | sys_accept _ =>
        mk_reply (3 + Z.of_nat (count_calls n_socket w + count_calls n_accept w))
          None (chars "127.0.0.1:54321") 16 "" "" []
    | sys_getnameinfo _ _ _ => mk_reply 0 None [] 0 "127.0.0.1" "54321" []
    | sys_send _ _ len _ => plain len
    | sys_recv _ len _ =>
        if Nat.eqb (count_calls n_recv w) 0 then
          let d := firstn (Z.to_nat len) peer_bytes in
          mk_reply (Z.of_nat (List.length d)) None [] 0 "" "" d
        else plain 0
    | _ => plain 0
    end.

Definition sim (peer_bytes : list ascii) (faults : list call_name) : platform :=
  mk_platform 0 1 1 2 1 2 128 (sim_os peer_bytes faults).

(** ** Reading a result *)

Definition outcome_of {S A} (r : outcome A * S * trace) : outcome A := fst (fst r).
Definition state_of {S A} (r : outcome A * S * trace) : S := snd (fst r).
Definition trace_of {S A} (r : outcome A * S * trace) : trace := snd r.

Definition returned {A} (o : outcome A) : bool :=
  match o with Ok _ => true | _ => false end.

(** The kind of the exception an outcome carries, if it carries one. *)
Definition thrown_kind {A} (o : outcome A) : option exn_kind :=
  match o with Throw e => Some (kind e) | _ => None end.

(** An accepted client and what the peer of the scenarios sends. *)
Definition client4 : socket.t := socket.ctor_fd 4 "127.0.0.1" 54321.
Definition ping : list ascii := chars ("PING" ++ nl).

(** The acknowledgement [process] sends for the command [PING]. *)
Definition ping_reply : list ascii := chars ("Executing command [PING] ..." ++ nl).

(** The exceptions a [bind] can end with. *)
Definition resolution_failed : exn :=
  mk_exn runtime_error "tcp::socket::get_addr_info: getaddrinfo() failed.".
Definition creation_failed : exn :=
  mk_exn runtime_error "tcp::socket::create_socket: socket failed().".
Definition setup_failed : exn :=
  mk_exn runtime_error "tcp::socket::bind: setsockopt() failed.".
Definition bind_failed : exn :=
  mk_exn runtime_error "tcp::socket::bind: bind() failed.".

(** A bound socket listening on descriptor 3, and the history that gave
    it that descriptor. *)
Definition listening : socket.t :=
  socket.set_is_socket_bound true (socket.set_fd 3 socket.ctor).
Definition opened : trace := [(sys_socket 2 1 6, plain 3)].

(** A callback that writes the command to standard output. *)
Definition echo (P : platform) : server.callback :=
  fun cmd => syscall P (std_cout cmd) ;; mret tt.

(** The exception [run] refuses a running server with. *)
Definition already_running : exn :=
  mk_exn runtime_error "tcp::server::run: Server is aldready running.".

(** [m] only ever adds to the history, and only calls that [allowed] lets
    through. *)
Definition effect (allowed : call_name -> bool) {S A} (m : M S A) : Prop :=
  forall s w, exists l,
    trace_of (m s w) = w ++ l /\
    forallb (fun e : event => allowed (name_of (fst e))) l = true.

Definition no_accept (n : call_name) : bool := negb (call_name_eqb n n_accept).
Definition anything (n : call_name) : bool := true.

(** A callback that never calls the system's [accept]. *)
Definition quiet_callback (cb : option server.callback) : Prop :=
  forall f cmd, cb = Some f -> effect no_accept (f cmd).

(** [m] makes every call but [n]. *)
Definition except (n : call_name) (m : call_name) : bool :=
  negb (call_name_eqb m n).

(** The chain of candidates [create_socket] walks from [p] along [ai_next]. *)
Fixpoint candidates (p : addrinfo) : list addrinfo :=
  match p with
  | mk_addrinfo _ _ _ _ _ _ next =>
      p :: match next with
           | Some q => candidates q
           | None => []
           end
  end.

(** The exceptions of the calls other than [bind]. *)
Definition listen_failed : exn :=
  mk_exn runtime_error "tcp::socket::listen: listen() failed.".
Definition accept_failed : exn :=
  mk_exn runtime_error "tcp::socket::accpet: accept() failed.".
Definition name_lookup_failed : exn :=
  mk_exn runtime_error "tcp::socket::accept: getnameinfo() failed.".
Definition connect_failed : exn :=
  mk_exn runtime_error "tcp::socket::connect: connect() failed.".
Definition send_failed : exn :=
  mk_exn runtime_error "tcp::socket::send: send() failed.".
Definition receive_failed_exn : exn :=
  mk_exn runtime_error "tcp::socket::receive: recv() failed.".

(** The acknowledgement [process] builds around a command. *)
Definition acknowledgement (cmd : string) : string :=
  (("Executing command [" ++ cmd) ++ ("] ..." ++ nl))%string.

Definition no_NUL (l : list ascii) : Prop :=
  forallb (fun c => negb (is_NUL c)) l = true.

(** What a caller may do with a socket, and a caller that does so in turn,
    catching whatever is thrown and dropping what is returned. *)
Inductive method : Type :=
| m_bind (host : string) (port : Z)
| m_listen (backlog : Z)
| m_accept
| m_connect (host : string) (port : Z)
| m_send (message : list ascii) (len : Z)
| m_receive (size : Z)
| m_close.

Definition invoke (P : platform) (m : method) (s : socket.t) (w : trace) :
    socket.t * trace :=
  match m with
  | m_bind host port =>
      let r := socket.bind P host port s w in (state_of r, trace_of r)
  | m_listen backlog =>
      let r := socket.listen P backlog s w in (state_of r, trace_of r)
  | m_accept =>
      let r := socket.accept P s w in (state_of r, trace_of r)
  | m_connect host port =>
      let r := socket.connect P host port s w in (state_of r, trace_of r)
  | m_send message len =>
      let r := socket.send P message len s w in (state_of r, trace_of r)
  | m_receive size =>
      let r := socket.receive P size s w in (state_of r, trace_of r)
  | m_close =>
      let r := socket.close P s w in (state_of r, trace_of r)
  end.

Fixpoint invoke_all (P : platform) (ms : list method) (s : socket.t) (w : trace) :
    socket.t * trace :=
  match ms with
  | [] => (s, w)
  | m :: ms' => let '(s', w') := invoke P m s w in invoke_all P ms' s' w'
  end.

(** Two candidate addresses, for a system that refuses the first. *)
Definition two_candidates : addrinfo :=
  mk_addrinfo 0 10 1 6 28 (Some (chars "[::1]:12345")) (Some loopback).

(** A system that has no IPv6: it resolves to [two_candidates] and refuses
    a socket of family 10. *)
Definition v4_only_os (w : trace) (c : call) : reply :=
  match c with
  | sys_getaddrinfo _ _ _ _ => mk_reply 0 (Some two_candidates) [] 0 "" "" []
  | sys_socket 10 _ _ => plain (-1)
  | _ => sim_os [] [] w c
  end.

Definition v4_only : platform := mk_platform 0 1 1 2 1 2 128 v4_only_os.

(** A message that fills the whole receive buffer. *)
Definition flood : list ascii := repeat "a"%char (Z.to_nat tools.BUFFER_SIZE).

(** The calls [receive] makes. *)
Definition recv_call (s : socket.t) (size : Z) : call :=
  sys_recv (socket.fd_ s) size 0.

Definition peer_closed_notice : call :=
  std_cout ("Connection closed by peer." ++ nl).

Ltac monad_unfold :=
  unfold mbind, mret, get, put, modify, throw, undefined, pure, syscall, zoom,
    of_option in *.


Lemma set_fd_same (s : socket.t) : socket.set_fd (socket.fd_ s) s = s.
Proof. destruct s; reflexivity. Qed.

(** ** [close] *)

Section close_facts.
Variable P : platform.

Lemma close_unopened (s : socket.t) (w : trace) :
  socket.fd_ s = -1 -> socket.close P s w = (Ok tt, s, w).
Proof.
  intros H. unfold socket.close. monad_unfold.
  rewrite H. cbn. rewrite <- H at 1. now rewrite set_fd_same.
Qed.

Lemma close_open_ok (s : socket.t) (w : trace) :
  socket.fd_ s <> -1 ->
  ret (os P w (sys_close (socket.fd_ s))) <> -1 ->
  socket.close P s w =
    (Ok tt, socket.set_fd (-1) s, w ++ [the (sys_close (socket.fd_ s)) P w]).
Proof.
  intros Hfd Hret. unfold socket.close. monad_unfold.
  apply Z.eqb_neq in Hfd, Hret. rewrite Hfd. cbn. now rewrite Hret.
Qed.

Lemma close_open_fail (s : socket.t) (w : trace) :
  socket.fd_ s <> -1 ->
  ret (os P w (sys_close (socket.fd_ s))) = -1 ->
  socket.close P s w =
    (Throw (mk_exn runtime_error "tcp::socket::close: close() failed."),
     s, w ++ [the (sys_close (socket.fd_ s)) P w]).
Proof.
  intros Hfd Hret. unfold socket.close. monad_unfold.
  apply Z.eqb_neq in Hfd. apply Z.eqb_eq in Hret. rewrite Hfd. cbn.
  now rewrite Hret.
Qed.

(** However [close] ends, it ends in one of the three ways above. *)
Lemma close_cases (s : socket.t) (w : trace) :
  (socket.fd_ s = -1 /\ socket.close P s w = (Ok tt, s, w)) \/
  (socket.fd_ s <> -1 /\
   socket.close P s w =
     (Ok tt, socket.set_fd (-1) s, w ++ [the (sys_close (socket.fd_ s)) P w])) \/
  (socket.fd_ s <> -1 /\
   socket.close P s w =
     (Throw (mk_exn runtime_error "tcp::socket::close: close() failed."),
      s, w ++ [the (sys_close (socket.fd_ s)) P w])).
Proof.
  destruct (Z.eq_dec (socket.fd_ s) (-1)) as [E | N].
  - left. split; [assumption | now apply close_unopened].
  - right.
    destruct (Z.eq_dec (ret (os P w (sys_close (socket.fd_ s)))) (-1)) as [F | G].
    + right. split; [assumption | now apply close_open_fail].
    + left. split; [assumption | now apply close_open_ok].
Qed.

(** C4, as the code has it.  With no open descriptor [close] is a no-op
    that cannot fail: it returns, calls nothing and changes nothing.  Every
    [close] that returns leaves the descriptor unopened, and a [close]
    called right after it returns as well, makes no call to the system and
    leaves the very same unopened socket. *)
Theorem close_idempotent (s s1 : socket.t) (w w1 : trace) (o : outcome unit) :
  socket.close P s w = (o, s1, w1) ->
  (socket.fd_ s = -1 -> o = Ok tt /\ s1 = s /\ w1 = w) /\
  (returned o = true ->
     socket.fd_ s1 = -1 /\ socket.close P s1 w1 = (Ok tt, s1, w1)).
Proof.
  intros Hrun. split.
  - intros Hfd. rewrite (close_unopened s w Hfd) in Hrun.
    now inversion Hrun.
  - intros Hok.
    destruct (close_cases s w) as [[Hfd E] | [[Hfd E] | [Hfd E]]];
      rewrite E in Hrun; inversion Hrun; subst; cbn in Hok;
      try discriminate.
    + split; [assumption | now apply close_unopened].
    + split; [reflexivity | now apply close_unopened].
Qed.

End close_facts.

Lemma close_idempotent_witness :
  socket.close (sim [] []) client4 [] =
    (Ok tt, socket.ctor_fd (-1) "127.0.0.1" 54321, [(sys_close 4, plain 0)]) /\
  socket.close (sim [] []) (socket.ctor_fd (-1) "127.0.0.1" 54321)
    [(sys_close 4, plain 0)] =
    (Ok tt, socket.ctor_fd (-1) "127.0.0.1" 54321, [(sys_close 4, plain 0)]) /\
  socket.close (sim [] []) socket.ctor [] = (Ok tt, socket.ctor, []).
Proof.
  assert (E : socket.close (sim [] []) client4 [] =
              (Ok tt, socket.ctor_fd (-1) "127.0.0.1" 54321,
               [(sys_close 4, plain 0)])) by reflexivity.
  destruct (close_idempotent (sim [] []) _ _ _ _ _ E) as [_ Hagain].
  destruct (Hagain eq_refl) as [_ E2].
  assert (E0 : socket.close (sim [] []) socket.ctor [] =
               (outcome_of (socket.close (sim [] []) socket.ctor []),
                state_of (socket.close (sim [] []) socket.ctor []),
                trace_of (socket.close (sim [] []) socket.ctor [])))
    by reflexivity.
  destruct (close_idempotent (sim [] []) _ _ _ _ _ E0) as [Hnoop _].
  destruct (Hnoop eq_refl) as [Ho [Hs Hw]].
  split; [exact E |]. split; [exact E2 |].
  rewrite E0, Ho, Hs, Hw. reflexivity.
Defined.

(** C4 as stated fails where the system's [close] fails: the exception
    leaves [close] before the descriptor is reset, so the socket still holds
    descriptor 4. *)
Lemma close_failure_keeps_descriptor :
  let r := socket.close (sim [] [n_close]) (socket.ctor_fd 4 "127.0.0.1" 54321) [] in
  thrown_kind (outcome_of r) = Some runtime_error /\
  socket.fd_ (state_of r) = 4 /\
  socket.fd_ (state_of r) <> -1.
Proof. cbv. repeat split; discriminate. Qed.

(** ** [receive] *)

Lemma recv_into_length (buffer : list ascii) (r : reply) :
  List.length (socket.recv_into buffer r) = List.length buffer.
Proof.
  unfold socket.recv_into.
  rewrite length_app, length_firstn, length_skipn. lia.
Qed.

Lemma recv_into_tail (n : nat) (r : reply) (i : nat) :
  (Z.to_nat (ret r) <= i < n)%nat ->
  nth_error (socket.recv_into (repeat NUL n) r) i = Some NUL.
Proof.
  intros [Hlo Hhi]. unfold socket.recv_into.
  set (k := Nat.min _ _).
  assert (Hk : (k <= i)%nat) by (subst k; lia).
  assert (Hlen : List.length (firstn k (r_data r)) = k).
  { rewrite length_firstn. subst k. rewrite repeat_length. lia. }
  rewrite nth_error_app2 by lia.
  rewrite Hlen, nth_error_skipn.
  apply nth_error_repeat. lia.
Qed.

Lemma recv_into_nothing (buffer : list ascii) (r : reply) :
  ret r = 0 -> socket.recv_into buffer r = buffer.
Proof. intros H. unfold socket.recv_into. now rewrite H. Qed.

Section receive_facts.
Variable P : platform.

Lemma receive_unopened (size : Z) (s : socket.t) (w : trace) :
  socket.fd_ s = -1 ->
  socket.receive P size s w =
    (Throw (mk_exn logic_error
              ("tcp::socket::send: Invalid operation. Trying to receive data on a " ++
               "non connected socket.")), s, w).
Proof.
  intros H. unfold socket.receive. monad_unfold. now rewrite H.
Qed.

Lemma receive_failed (size : Z) (s : socket.t) (w : trace) :
  socket.fd_ s <> -1 ->
  to_size_t (ret (os P w (recv_call s size))) = to_size_t (-1) ->
  socket.receive P size s w =
    (Throw (mk_exn runtime_error "tcp::socket::receive: recv() failed."),
     s, w ++ [the (recv_call s size) P w]).
Proof.
  intros Hfd Hret. unfold socket.receive, recv_call in *. monad_unfold.
  apply Z.eqb_neq in Hfd. rewrite Hfd.
  apply Z.eqb_eq in Hret. cbv zeta. now rewrite Hret.
Qed.

Lemma receive_data (size : Z) (s : socket.t) (w : trace) :
  socket.fd_ s <> -1 ->
  to_size_t (ret (os P w (recv_call s size))) <> to_size_t (-1) ->
  to_size_t (ret (os P w (recv_call s size))) <> 0 ->
  socket.receive P size s w =
    (Ok (socket.recv_into (repeat NUL (Z.to_nat size)) (os P w (recv_call s size))),
     s, w ++ [the (recv_call s size) P w]).
Proof.
  intros Hfd Hret Hnz. unfold socket.receive, recv_call in *. monad_unfold.
  apply Z.eqb_neq in Hfd, Hret, Hnz. rewrite Hfd.
  cbv zeta. now rewrite Hret, Hnz.
Qed.

(** After a zero-byte read [receive] goes on as [close] does. *)
Lemma receive_zero (size : Z) (s : socket.t) (w : trace) :
  socket.fd_ s <> -1 ->
  to_size_t (ret (os P w (recv_call s size))) = 0 ->
  let w1 := w ++ [the (recv_call s size) P w] in
  let w2 := w1 ++ [the peer_closed_notice P w1] in
  let buffer :=
    socket.recv_into (repeat NUL (Z.to_nat size)) (os P w (recv_call s size)) in
  socket.receive P size s w =
    match socket.close P s w2 with
    | (Ok _, s', w') => (Ok buffer, s', w')
    | (Throw e, s', w') => (Throw e, s', w')
    | (Terminate, s', w') => (Terminate, s', w')
    | (Undefined, s', w') => (Undefined, s', w')
    end.
Proof.
  intros Hfd Hret w1 w2 buffer. subst w1 w2 buffer.
  unfold socket.receive, recv_call, peer_closed_notice, the in *.
  apply Z.eqb_neq in Hfd.
  unfold mbind, get, syscall, mret, throw. rewrite Hfd. cbv beta iota zeta.
  rewrite Hret.
  change (0 =? to_size_t (-1)) with false.
  change (0 =? 0) with true. cbv beta iota zeta.
  destruct (socket.close P s _) as [[[u | e | | ] s'] w']; reflexivity.
Qed.

(** C3, as the code has it.  When the read on an open socket yields zero
    bytes and the close that follows succeeds, [receive] does not fail:
    it reports the closure on standard output, closes the socket, so that
    its descriptor is left unopened, and returns.  What it returns is not
    a zero-length result but the whole zero-filled buffer, of the length
    asked for. *)
Theorem receive_peer_closed (size : Z) (s : socket.t) (w : trace) :
  socket.fd_ s <> -1 ->
  ret (os P w (recv_call s size)) = 0 ->
  let w1 := w ++ [the (recv_call s size) P w] in
  let w2 := w1 ++ [the peer_closed_notice P w1] in
  ret (os P w2 (sys_close (socket.fd_ s))) <> -1 ->
  socket.receive P size s w =
    (Ok (repeat NUL (Z.to_nat size)), socket.set_fd (-1) s,
     w2 ++ [the (sys_close (socket.fd_ s)) P w2]) /\
  socket.fd_ (state_of (socket.receive P size s w)) = -1 /\
  List.length (repeat NUL (Z.to_nat size)) = Z.to_nat size.
Proof.
  intros Hfd Hret w1 w2 Hclose.
  assert (E : socket.receive P size s w =
              (Ok (repeat NUL (Z.to_nat size)), socket.set_fd (-1) s,
               w2 ++ [the (sys_close (socket.fd_ s)) P w2])).
  { rewrite (receive_zero size s w Hfd) by now rewrite Hret.
    cbv zeta. fold w1. fold w2.
    rewrite (close_open_ok P s w2 Hfd Hclose).
    now rewrite recv_into_nothing. }
  split; [exact E |]. split.
  - now rewrite E.
  - apply repeat_length.
Qed.

(** C10.  On an open socket every [receive] that returns hands back a
    buffer of exactly the length asked for, in which every position from
    the count of bytes read onwards still holds the zero byte it was
    created with; and [receive] does return whenever the read delivers
    something. *)
Theorem receive_buffer_not_trimmed (size : Z) (s : socket.t) (w : trace) :
  socket.fd_ s <> -1 ->
  0 <= size ->
  let r := os P w (recv_call s size) in
  (forall buf s' w',
      socket.receive P size s w = (Ok buf, s', w') ->
      Z.of_nat (List.length buf) = size /\
      forall i, (Z.to_nat (ret r) <= i < Z.to_nat size)%nat ->
                nth_error buf i = Some NUL) /\
  (0 < ret r <= size -> size < 2 ^ 63 ->
   returned (outcome_of (socket.receive P size s w)) = true).
Proof.
  intros Hfd Hsize r.
  assert (Hbuf : forall buf,
             buf = socket.recv_into (repeat NUL (Z.to_nat size)) r ->
             Z.of_nat (List.length buf) = size /\
             forall i, (Z.to_nat (ret r) <= i < Z.to_nat size)%nat ->
                       nth_error buf i = Some NUL).
  { intros buf ->. split.
    - rewrite recv_into_length, repeat_length. lia.
    - intros i Hi. now apply recv_into_tail. }
  split.
  - intros buf s' w' Hrun. apply Hbuf.
    destruct (Z.eq_dec (to_size_t (ret r)) (to_size_t (-1))) as [Hm | Hm].
    { rewrite (receive_failed size s w Hfd Hm) in Hrun. discriminate. }
    destruct (Z.eq_dec (to_size_t (ret r)) 0) as [Hz | Hz].
    + rewrite (receive_zero size s w Hfd Hz) in Hrun. cbv zeta in Hrun.
      destruct (socket.close P s _) as [[[u | e | | ] s1] w1];
        try discriminate.
      injection Hrun as Hb _ _. symmetry. exact Hb.
    + rewrite (receive_data size s w Hfd Hm Hz) in Hrun.
      injection Hrun as Hb _ _. symmetry. exact Hb.
  - intros Hr Hbig.
    assert (Hs : to_size_t (ret r) = ret r).
    { unfold to_size_t. apply Z.mod_small. lia. }
    rewrite (receive_data size s w Hfd).
    + reflexivity.
    + fold r. rewrite Hs. change (to_size_t (-1)) with (2 ^ 64 - 1). lia.
    + fold r. lia.
Qed.

End receive_facts.

Lemma receive_peer_closed_witness :
  socket.receive (sim [] []) 8 client4 [] =
    (Ok (repeat NUL 8), socket.ctor_fd (-1) "127.0.0.1" 54321,
     [(recv_call client4 8, plain 0); (peer_closed_notice, plain 0);
      (sys_close 4, plain 0)]).
Proof.
  destruct (receive_peer_closed (sim [] []) 8 client4 []) as [E _].
  - discriminate.
  - reflexivity.
  - discriminate.
  - rewrite E. reflexivity.
Defined.

(** C3 as stated fails on the result: after a zero-byte read the buffer
    handed back has the eight bytes asked for, not none. *)
Lemma receive_peer_closed_not_empty :
  ret (os (sim [] []) [] (recv_call client4 8)) = 0 /\
  exists buf,
    outcome_of (socket.receive (sim [] []) 8 client4 []) = Ok buf /\
    List.length buf = 8%nat /\ List.length buf <> 0%nat.
Proof.
  split; [reflexivity |].
  exists (repeat NUL 8). repeat split. discriminate.
Qed.

Lemma receive_buffer_not_trimmed_witness :
  socket.receive (sim ping []) 8 client4 [] =
    (Ok (ping ++ repeat NUL 3), client4,
     [(recv_call client4 8, mk_reply 5 None [] 0 "" "" ping)]) /\
  Z.of_nat (List.length (ping ++ repeat NUL 3)) = 8 /\
  nth_error (ping ++ repeat NUL 3) 5 = Some NUL /\
  returned (outcome_of (socket.receive (sim ping []) 8 client4 [])) = true.
Proof.
  assert (Hfd : socket.fd_ client4 <> -1) by discriminate.
  assert (Hsz : 0 <= 8) by discriminate.
  destruct (receive_buffer_not_trimmed (sim ping []) 8 client4 [] Hfd Hsz)
    as [Hshape Hret].
  assert (E : socket.receive (sim ping []) 8 client4 [] =
              (Ok (ping ++ repeat NUL 3), client4,
               [(recv_call client4 8, mk_reply 5 None [] 0 "" "" ping)]))
    by reflexivity.
  destruct (Hshape _ _ _ E) as [Hlen Hzero].
  split; [exact E |]. split; [exact Hlen |]. split.
  - apply Hzero. cbv. split; repeat constructor.
  - apply Hret; cbv; [split |]; congruence.
Defined.

(** ** [send] *)

Section send_facts.
Variable P : platform.

Lemma send_unopened (message : list ascii) (len : Z) (s : socket.t) (w : trace) :
  socket.fd_ s = -1 ->
  socket.send P message len s w =
    (Throw (mk_exn logic_error
              ("tcp::socket::send: Invalid operation. Trying to send data on a non " ++
               "connected socket.")), s, w).
Proof.
  intros H. unfold socket.send. monad_unfold. now rewrite H.
Qed.

Lemma send_open (message : list ascii) (len : Z) (s : socket.t) (w : trace) :
  socket.fd_ s <> -1 ->
  len <= Z.of_nat (List.length message) ->
  let c := sys_send (socket.fd_ s) message len 0 in
  socket.send P message len s w =
    (if to_size_t (ret (os P w c)) =? to_size_t (-1)
     then Throw (mk_exn runtime_error "tcp::socket::send: send() failed.")
     else Ok (to_size_t (ret (os P w c))),
     s, w ++ [the c P w]).
Proof.
  intros Hfd Hlen c. subst c. unfold socket.send. monad_unfold.
  apply Z.eqb_neq in Hfd. rewrite Hfd.
  apply Z.ltb_ge in Hlen. rewrite Hlen. cbv zeta.
  destruct (to_size_t _ =? to_size_t (-1)); reflexivity.
Qed.

Lemma chars_length (m : string) : List.length (chars m) = String.length m.
Proof.
  unfold chars. induction m as [| c m IH]; cbn; [reflexivity | now rewrite IH].
Qed.

(** C7.  On an open socket [send] makes exactly one call to the system's
    [send], for the whole message at its full length, whatever that call
    answers: it is never repeated for the bytes a short write left over.
    When the call does not fail, what [send] returns is the count that
    call reported. *)
Theorem send_one_call (message : list ascii) (len : Z) (s : socket.t) (w : trace) :
  socket.fd_ s <> -1 ->
  len <= Z.of_nat (List.length message) ->
  let c := sys_send (socket.fd_ s) message len 0 in
  let r := socket.send P message len s w in
  trace_of r = w ++ [the c P w] /\
  state_of r = s /\
  (0 <= ret (os P w c) < 2 ^ 63 -> outcome_of r = Ok (ret (os P w c))) /\
  (ret (os P w c) = -1 -> thrown_kind (outcome_of r) = Some runtime_error).
Proof.
  intros Hfd Hlen c r. subst r.
  rewrite (send_open message len s w Hfd Hlen). fold c.
  repeat split.
  - intros Hr. unfold outcome_of. cbn [fst].
    assert (Hs : to_size_t (ret (os P w c)) = ret (os P w c)).
    { unfold to_size_t. apply Z.mod_small. lia. }
    rewrite Hs.
    destruct (Z.eqb_spec (ret (os P w c)) (to_size_t (-1))) as [E | _];
      [| reflexivity].
    change (to_size_t (-1)) with (2 ^ 64 - 1) in E. lia.
  - intros Hr. rewrite Hr. reflexivity.
Qed.

(** [send(const std::string &)] is the same call on the string's bytes. *)
Lemma send_string_open (message : string) (s : socket.t) (w : trace) :
  socket.fd_ s <> -1 ->
  let c := sys_send (socket.fd_ s) (chars message)
             (Z.of_nat (String.length message)) 0 in
  socket.send_string P message s w =
    (if to_size_t (ret (os P w c)) =? to_size_t (-1)
     then Throw (mk_exn runtime_error "tcp::socket::send: send() failed.")
     else Ok (to_size_t (ret (os P w c))),
     s, w ++ [the c P w]).
Proof.
  intros Hfd. unfold socket.send_string.
  apply send_open; [assumption |]. rewrite chars_length. lia.
Qed.

End send_facts.

Lemma send_one_call_witness :
  socket.send (sim [] []) ping 5 client4 [] =
    (Ok 5, client4, [(sys_send 4 ping 5 0, plain 5)]).
Proof.
  assert (Hfd : socket.fd_ client4 <> -1) by discriminate.
  assert (Hlen : 5 <= Z.of_nat (List.length ping)) by discriminate.
  destruct (send_one_call (sim [] []) ping 5 client4 [] Hfd Hlen)
    as [Ht [Hs [Ho _]]].
  assert (Hr : 0 <= ret (os (sim [] []) [] (sys_send (socket.fd_ client4) ping 5 0))
               < 2 ^ 63) by (cbv; split; congruence).
  specialize (Ho Hr).
  destruct (socket.send (sim [] []) ping 5 client4 []) as [[o s'] w'].
  unfold outcome_of, state_of, trace_of in *. cbn [fst snd] in *.
  now rewrite Ht, Hs, Ho.
Defined.

(** ** [listen] *)

Section listen_facts.
Variable P : platform.

Lemma listen_unbound (backlog : Z) (s : socket.t) (w : trace) :
  socket.is_socket_bound_ s = false ->
  socket.listen P backlog s w =
    (Throw (mk_exn logic_error
              ("tcp::socket::listen: Socket must be bound before listenning for " ++
               "incoming connections.")), s, w).
Proof.
  intros H. unfold socket.listen. monad_unfold. now rewrite H.
Qed.


End listen_facts.



(** ** [accept] *)

Section accept_facts.
Variable P : platform.

Lemma accept_ok (s : socket.t) (w : trace) (port : Z) :
  let a := os P w (sys_accept (socket.fd_ s)) in
  let w1 := w ++ [the (sys_accept (socket.fd_ s)) P w] in
  let g := sys_getnameinfo (r_addr a) (r_addrlen a)
             (Z.lor (NI_NUMERICHOST P) (NI_NUMERICSERV P)) in
  ret a <> -1 ->
  ret (os P w1 g) = 0 ->
  stoi (r_serv (os P w1 g)) = Ok port ->
  socket.accept P s w =
    (Ok (socket.ctor_fd (ret a) (r_host (os P w1 g)) (to_unsigned port)),
     s, w1 ++ [the g P w1]).
Proof.
  intros a w1 g Ha Hg Hp. subst a w1 g.
  unfold socket.accept. monad_unfold.
  apply Z.eqb_neq in Ha. rewrite Ha. cbv beta iota zeta.
  rewrite Hg. change (negb (0 =? 0)) with false. cbv beta iota zeta.
  now rewrite Hp.
Qed.

(** The first half of C8, which is what the code does.  When the system
    accepts a connection and names the peer, [accept] makes exactly two
    calls, the accept and a [getnameinfo] restricted to numeric host and
    numeric service, and returns a socket built afresh from the accepted
    descriptor and the host and port so obtained, with nothing resolved
    and not bound.  The listening socket is left as it was. *)
Theorem accept_returns_new_socket (s : socket.t) (w : trace) (port : Z) :
  let a := os P w (sys_accept (socket.fd_ s)) in
  let w1 := w ++ [the (sys_accept (socket.fd_ s)) P w] in
  let g := sys_getnameinfo (r_addr a) (r_addrlen a)
             (Z.lor (NI_NUMERICHOST P) (NI_NUMERICSERV P)) in
  ret a <> -1 ->
  ret (os P w1 g) = 0 ->
  stoi (r_serv (os P w1 g)) = Ok port ->
  let client := socket.ctor_fd (ret a) (r_host (os P w1 g)) (to_unsigned port) in
  socket.accept P s w = (Ok client, s, w1 ++ [the g P w1]) /\
  socket.fd_ client = ret a /\
  socket.host_ client = r_host (os P w1 g) /\
  socket.port_ client = to_unsigned port /\
  socket.addrinfo_ client = addrinfo_zero /\
  socket.is_socket_bound_ client = false.
Proof.
  intros a w1 g Ha Hg Hp client.
  split; [exact (accept_ok s w port Ha Hg Hp) | repeat split].
Qed.

End accept_facts.

Lemma accept_returns_new_socket_witness :
  let s := socket.set_is_socket_bound true (socket.set_fd 3 socket.ctor) in
  socket.accept (sim [] []) s [(sys_socket 2 1 6, plain 3)] =
    (Ok client4, s,
     [(sys_socket 2 1 6, plain 3);
      (sys_accept 3, mk_reply 4 None (chars "127.0.0.1:54321") 16 "" "" []);
      (sys_getnameinfo (chars "127.0.0.1:54321") 16 3,
       mk_reply 0 None [] 0 "127.0.0.1" "54321" [])]).
Proof.
  intros s.
  destruct (accept_returns_new_socket (sim [] []) s
              [(sys_socket 2 1 6, plain 3)] 54321) as [E _].
  - discriminate.
  - reflexivity.
  - reflexivity.
  - rewrite E. reflexivity.
Defined.

(** C8 as stated fails on its last part: nothing keeps an accepted socket
    from being bound or connected later.  Here the socket [accept] returned
    is closed and then bound, after which it reports itself bound; closed
    and connected, it is connected again. *)
Lemma accepted_socket_bound_again :
  let P := sim [] [] in
  let s := socket.set_is_socket_bound true (socket.set_fd 3 socket.ctor) in
  let r0 := socket.accept P s [(sys_socket 2 1 6, plain 3)] in
  exists client,
    outcome_of r0 = Ok client /\
    socket.is_socket_bound_ client = false /\
    let r1 := socket.close P client (trace_of r0) in
    let r2 := socket.bind P "127.0.0.1" 8080 (state_of r1) (trace_of r1) in
    let r3 := socket.connect P "127.0.0.1" 8080 (state_of r1) (trace_of r1) in
    outcome_of r1 = Ok tt /\
    outcome_of r2 = Ok tt /\
    socket.is_socket_bound_ (state_of r2) = true /\
    outcome_of r3 = Ok tt /\
    socket.fd_ (state_of r3) = 5.
Proof.
  exists client4. vm_compute. repeat split.
Qed.

(** ** Calls made out of turn *)

Section sequencing_facts.
Variable P : platform.

Lemma connect_bound (host : string) (port : Z) (s : socket.t) (w : trace) :
  socket.is_socket_bound_ s = true ->
  socket.connect P host port s w =
    (Throw (mk_exn logic_error
              ("tcp::socket::connect: Trying to connect a socket bound on port: " ++
               to_string (socket.port_ s) ++
               ". Invalid operation for a socket planned for a server application.")),
     s, w).
Proof.
  intros H. unfold socket.connect. monad_unfold. now rewrite H.
Qed.

Lemma run_guard (host : string) (port : Z) (srv : server.t) (w : trace) :
  server.is_running_ srv = true ->
  server.run P host port srv w =
    (Throw (mk_exn runtime_error "tcp::server::run: Server is aldready running."),
     srv, w).
Proof.
  intros H. unfold server.run. monad_unfold. now rewrite H.
Qed.

(** C5 at the point where the code departs from it.  [listen] before
    [bind], [connect] on a bound socket, and [send] and [receive] on an
    unopened socket all raise a [logic_error] at once ([listen_unbound],
    [connect_bound], [send_unopened], [receive_unopened]).  [run] on a
    server that is running is refused at once as well, before any call to
    the system, but with a [runtime_error], the kind every failed system
    call raises, and not with a [logic_error]. *)
Theorem run_while_running (host : string) (port : Z) (srv : server.t) (w : trace) :
  server.is_running_ srv = true ->
  server.run P host port srv w =
    (Throw (mk_exn runtime_error "tcp::server::run: Server is aldready running."),
     srv, w) /\
  thrown_kind (outcome_of (server.run P host port srv w)) = Some runtime_error /\
  thrown_kind (outcome_of (server.run P host port srv w)) <> Some logic_error.
Proof.
  intros H. rewrite (run_guard host port srv w H).
  repeat split. discriminate.
Qed.

End sequencing_facts.

Lemma run_while_running_witness :
  let srv := server.set_is_running true server.ctor in
  server.run (sim [] []) "127.0.0.1" 12345 srv [] =
    (Throw (mk_exn runtime_error "tcp::server::run: Server is aldready running."),
     srv, []).
Proof.
  intros srv.
  destruct (run_while_running (sim [] []) "127.0.0.1" 12345 srv []) as [E _].
  - reflexivity.
  - exact E.
Defined.

(** ** [bind] *)

Section bind_facts.
Variable P : platform.

Lemma get_addr_info_spec (s s1 : socket.t) (w w1 : trace) (o : outcome unit) :
  socket.get_addr_info P s w = (o, s1, w1) ->
  socket.fd_ s1 = socket.fd_ s /\
  socket.is_socket_bound_ s1 = socket.is_socket_bound_ s /\
  (o = Ok tt \/ o = Throw resolution_failed).
Proof.
  unfold socket.get_addr_info. monad_unfold.
  destruct (negb (ret _ =? 0)).
  - intros H. injection H as <- <- <-. auto.
  - destruct (r_infos _); intros H; injection H as <- <- <-; auto.
Qed.

Lemma try_candidates_spec :
  forall (p : addrinfo) (s s1 : socket.t) (w w1 : trace) (o : outcome unit),
    socket.try_candidates P p s w = (o, s1, w1) ->
    o = Ok tt /\ socket.is_socket_bound_ s1 = socket.is_socket_bound_ s.
Proof.
  fix IH 1. intros [fl fam typ proto len addr next] s s1 w w1 o.
  cbn [socket.try_candidates]. monad_unfold.
  destruct (ret _ =? -1).
  - destruct next as [q |].
    + intros H. apply IH in H. exact H.
    + intros H. injection H as <- <- <-. auto.
  - intros H. injection H as <- <- <-. auto.
Qed.

Lemma create_socket_spec (s s1 : socket.t) (w w1 : trace) (o : outcome unit) :
  socket.create_socket P s w = (o, s1, w1) ->
  socket.is_socket_bound_ s1 = socket.is_socket_bound_ s /\
  ((o = Ok tt /\ socket.fd_ s1 <> -1) \/
   (o = Throw creation_failed /\ socket.fd_ s = -1 /\ socket.fd_ s1 = -1)).
Proof.
  unfold socket.create_socket.
  unfold mbind at 1. unfold get at 1.
  destruct (Z.eqb_spec (socket.fd_ s) (-1)) as [E | N]; cbn [negb].
  - unfold mbind at 1.
    destruct (socket.try_candidates P (socket.addrinfo_ s) s w)
      as [[o' s'] w'] eqn:T.
    apply try_candidates_spec in T. destruct T as [-> Hb].
    monad_unfold.
    destruct (Z.eqb_spec (socket.fd_ s') (-1)) as [E' | N'];
      intros H; injection H as <- <- <-; auto.
  - monad_unfold. intros H. injection H as <- <- <-. auto.
Qed.

(** C2, as the code has it.  A [bind] that does not succeed ends with one
    of four exceptions and never marks the socket bound.  When address
    resolution fails the descriptor is as it was before the call, and when
    no descriptor can be created it is the closed sentinel; so on a socket
    that was unopened both leave it unopened.  When setting the socket
    option or the system's [bind] fails, the socket keeps an open
    descriptor. *)
Theorem bind_failure (host : string) (port : Z) (s s' : socket.t)
    (w w' : trace) (o : outcome unit) :
  socket.bind P host port s w = (o, s', w') ->
  returned o = false ->
  socket.is_socket_bound_ s' = socket.is_socket_bound_ s /\
  ((o = Throw resolution_failed /\ socket.fd_ s' = socket.fd_ s) \/
   (o = Throw creation_failed /\ socket.fd_ s = -1 /\ socket.fd_ s' = -1) \/
   ((o = Throw setup_failed \/ o = Throw bind_failed) /\ socket.fd_ s' <> -1)).
Proof.
  unfold socket.bind. cbv zeta.
  unfold mbind at 1. unfold modify at 1.
  unfold mbind at 1. unfold modify at 1.
  unfold mbind at 1.
  destruct (socket.get_addr_info P _ w) as [[o1 s1] w1] eqn:G.
  apply get_addr_info_spec in G. cbn in G. destruct G as [Gfd [Gb Go]].
  destruct Go as [-> | ->].
  2:{ intros H _. injection H as <- <- <-. auto. }
  unfold mbind at 1.
  destruct (socket.create_socket P s1 w1) as [[o2 s2] w2] eqn:C.
  apply create_socket_spec in C. destruct C as [Cb Co].
  destruct Co as [[-> Cfd] | [-> [Cfd0 Cfd]]].
  2:{ intros H _. injection H as <- <- <-.
      split; [congruence |]. right. left. repeat split; congruence. }
  monad_unfold.
  destruct (ret _ =? -1).
  { intros H _. injection H as <- <- <-.
    split; [congruence |]. right. right. auto. }
  destruct (ret _ =? -1).
  { intros H _. injection H as <- <- <-.
    split; [congruence |]. right. right. auto. }
  intros H Hr. injection H as <- <- <-. discriminate.
Qed.

End bind_facts.

Lemma bind_failure_witness :
  socket.bind (sim [] [n_getaddrinfo]) "127.0.0.1" 12345 socket.ctor [] =
    (Throw resolution_failed, socket.ctor,
     [(sys_getaddrinfo "127.0.0.1" "12345" 0 1, plain (-1))]) /\
  socket.is_socket_bound_ socket.ctor = false /\
  socket.fd_ socket.ctor = -1.
Proof.
  assert (E : socket.bind (sim [] [n_getaddrinfo]) "127.0.0.1" 12345 socket.ctor [] =
              (Throw resolution_failed, socket.ctor,
               [(sys_getaddrinfo "127.0.0.1" "12345" 0 1, plain (-1))]))
    by reflexivity.
  destruct (bind_failure (sim [] [n_getaddrinfo]) "127.0.0.1" 12345
              socket.ctor socket.ctor [] _ _ E eq_refl) as [Hb _].
  split; [exact E |]. split; [exact Hb | reflexivity].
Defined.

(** C2 as stated fails at the last two stages: when setting the socket
    option fails, or when the system refuses the address, [bind] leaves the
    fresh socket holding the descriptor it has just created. *)
Lemma bind_failure_leaves_descriptor_open :
  let r1 := socket.bind (sim [] [n_setsockopt]) "127.0.0.1" 12345 socket.ctor [] in
  let r2 := socket.bind (sim [] [n_bind]) "127.0.0.1" 12345 socket.ctor [] in
  outcome_of r1 = Throw setup_failed /\
  socket.fd_ (state_of r1) = 3 /\ socket.fd_ (state_of r1) <> -1 /\
  outcome_of r2 = Throw bind_failed /\
  socket.fd_ (state_of r2) = 3 /\ socket.fd_ (state_of r2) <> -1.
Proof. vm_compute. repeat split; discriminate. Qed.

(** ** [process] *)

Lemma set_socket_same (srv : server.t) :
  server.set_socket (server.socket_ srv) srv = srv.
Proof. destruct srv; reflexivity. Qed.

Lemma c_str_ping (rest : list ascii) : c_str (ping ++ NUL :: rest) = Some ping.
Proof. reflexivity. Qed.

Lemma buffer_ping (r : reply) :
  ret r = 5 -> r_data r = ping ->
  exists rest,
    socket.recv_into (repeat NUL (Z.to_nat tools.BUFFER_SIZE)) r =
      ping ++ NUL :: rest.
Proof.
  intros Hr Hd.
  exists (skipn 6 (repeat NUL (Z.to_nat tools.BUFFER_SIZE))).
  unfold socket.recv_into. rewrite Hr, Hd. vm_compute. reflexivity.
Qed.

Section process_facts.
Variable P : platform.

(** With the client's bytes read and the reply accepted by the system,
    what is left of [serve] is the callback, called on [PING]. *)
Lemma serve_ping (cb : server.callback) (client : socket.t) (w : trace) :
  socket.fd_ client <> -1 ->
  let rc := recv_call client tools.BUFFER_SIZE in
  ret (os P w rc) = 5 ->
  r_data (os P w rc) = ping ->
  let w1 := w ++ [the rc P w] in
  let sc := sys_send (socket.fd_ client) ping_reply 29 0 in
  0 <= ret (os P w1 sc) <= 29 ->
  server.serve P (Some cb) client w = cb "PING"%string client (w1 ++ [the sc P w1]).
Proof.
  intros Hfd rc Hret Hdata w1 sc Hsend.
  unfold server.serve.
  unfold mbind at 1.
  rewrite (receive_data P tools.BUFFER_SIZE client w Hfd);
    fold rc; try (rewrite Hret; discriminate).
  destruct (buffer_ping (os P w rc) Hret Hdata) as [rest ->].
  rewrite c_str_ping.
  unfold mbind at 1. unfold of_option at 1. unfold mret at 1.
  unfold mbind at 1. unfold of_option at 1. unfold mret at 1.
  change (erase_last ping) with (Some (chars "PING")).
  cbv beta iota zeta.
  change (str (chars "PING")) with "PING"%string.
  unfold mbind at 1.
  rewrite (send_string_open P _ client (w ++ [the rc P w]) Hfd).
  fold w1.
  change (sys_send (socket.fd_ client) (chars _) (Z.of_nat _) 0) with sc.
  assert (Hs : to_size_t (ret (os P w1 sc)) = ret (os P w1 sc)).
  { unfold to_size_t. apply Z.mod_small. lia. }
  rewrite Hs.
  destruct (Z.eqb_spec (ret (os P w1 sc)) (to_size_t (-1))) as [E | _].
  { change (to_size_t (-1)) with (2 ^ 64 - 1) in E. lia. }
  reflexivity.
Qed.

(** C1.  On a server with callback [cb], when the system accepts a client,
    names it, and delivers its five bytes [PING] and line feed in one
    read, [process] strips the line feed, sends the client the bytes of
    the acknowledgement for [PING], all 29 in one call, and only then,
    with that send already in the history, calls [cb] on the command
    [PING] and the accepted client socket.  Nothing more follows but the
    destructor of the client as it leaves scope. *)
Theorem process_ping (srv : server.t) (cb : server.callback) (w : trace) (port : Z) :
  server.callback_ srv = Some cb ->
  let listener := server.socket_ srv in
  let a := os P w (sys_accept (socket.fd_ listener)) in
  let w1 := w ++ [the (sys_accept (socket.fd_ listener)) P w] in
  let g := sys_getnameinfo (r_addr a) (r_addrlen a)
             (Z.lor (NI_NUMERICHOST P) (NI_NUMERICSERV P)) in
  let w2 := w1 ++ [the g P w1] in
  let client := socket.ctor_fd (ret a) (r_host (os P w1 g)) (to_unsigned port) in
  let rc := recv_call client tools.BUFFER_SIZE in
  let w3 := w2 ++ [the rc P w2] in
  let sc := sys_send (ret a) ping_reply 29 0 in
  let w4 := w3 ++ [the sc P w3] in
  ret a <> -1 ->
  ret (os P w1 g) = 0 ->
  stoi (r_serv (os P w1 g)) = Ok port ->
  ret (os P w2 rc) = 5 ->
  r_data (os P w2 rc) = ping ->
  0 <= ret (os P w3 sc) <= 29 ->
  server.process P srv w =
    scoped client (socket.dtor P) (cb "PING"%string) srv w4.
Proof.
  intros Hcb listener a w1 g w2 client rc w3 sc w4 Ha Hg Hp Hr Hd Hs.
  unfold server.process.
  unfold mbind at 1. unfold server.on_socket, zoom.
  pose proof (accept_ok P listener w port Ha Hg Hp) as E.
  fold listener. rewrite E. fold a w1 g w2 client.
  unfold listener. rewrite set_socket_same.
  unfold mbind at 1. unfold get at 1. rewrite Hcb.
  unfold scoped.
  rewrite (serve_ping cb client w2 Ha Hr Hd Hs).
  reflexivity.
Qed.

End process_facts.

Lemma process_ping_witness :
  let P := sim ping [] in
  let srv := server.mk listening true (Some (echo P)) in
  server.process P srv opened =
    (Ok tt, srv,
     opened ++
     [(sys_accept 3, mk_reply 4 None (chars "127.0.0.1:54321") 16 "" "" []);
      (sys_getnameinfo (chars "127.0.0.1:54321") 16 3,
       mk_reply 0 None [] 0 "127.0.0.1" "54321" []);
      (sys_recv 4 8096 0, mk_reply 5 None [] 0 "" "" ping);
      (sys_send 4 ping_reply 29 0, plain 29);
      (std_cout "PING", plain 0);
      (sys_close 4, plain 0)]).
Proof.
  intros P srv.
  rewrite (process_ping P srv (echo P) opened 54321).
  - vm_compute. reflexivity.
  - reflexivity.
  - discriminate.
  - reflexivity.
  - reflexivity.
  - vm_compute. reflexivity.
  - vm_compute. reflexivity.
  - vm_compute. split; discriminate.
Defined.

(** ** What each method may call *)

Section effects.
Variable allowed : call_name -> bool.

Lemma effect_mret {S A} (a : A) : effect allowed (@mret S A a).
Proof. intros s w. exists []. cbn. now rewrite app_nil_r. Qed.

Lemma effect_throw {S A} (k : exn_kind) (msg : string) :
  effect allowed (@throw S A k msg).
Proof. intros s w. exists []. cbn. now rewrite app_nil_r. Qed.

Lemma effect_undefined {S A} : effect allowed (@undefined S A).
Proof. intros s w. exists []. cbn. now rewrite app_nil_r. Qed.

Lemma effect_pure {S A} (o : outcome A) : effect allowed (@pure S A o).
Proof. intros s w. exists []. cbn. now rewrite app_nil_r. Qed.

Lemma effect_get {S} : effect allowed (@get S).
Proof. intros s w. exists []. cbn. now rewrite app_nil_r. Qed.

Lemma effect_modify {S} (f : S -> S) : effect allowed (modify f).
Proof. intros s w. exists []. cbn. now rewrite app_nil_r. Qed.

Lemma effect_of_option {S A} (o : option A) : effect allowed (@of_option S A o).
Proof. destruct o; [apply effect_mret | apply effect_undefined]. Qed.

Lemma effect_syscall {S} (P : platform) (c : call) :
  allowed (name_of c) = true -> effect allowed (@syscall S P c).
Proof.
  intros H s w. exists [the c P w]. split; [reflexivity |].
  cbn. now rewrite H.
Qed.

Lemma effect_mbind {S A B} (m : M S A) (k : A -> M S B) :
  effect allowed m -> (forall a, effect allowed (k a)) ->
  effect allowed (mbind m k).
Proof.
  intros Hm Hk s w. unfold mbind.
  destruct (Hm s w) as [l [El Fl]].
  destruct (m s w) as [[[a | e | | ] s'] w']; cbn in El; subst w';
    try (exists l; split; [reflexivity | assumption]).
  destruct (Hk a s' (w ++ l)) as [l' [El' Fl']].
  exists (l ++ l'). split.
  - rewrite El'. now rewrite app_assoc.
  - rewrite forallb_app. now rewrite Fl, Fl'.
Qed.

Lemma effect_zoom {S T A} (proj : S -> T) (inj : T -> S -> S) (m : M T A) :
  effect allowed m -> effect allowed (zoom proj inj m).
Proof.
  intros Hm s w. unfold zoom.
  destruct (Hm (proj s) w) as [l [El Fl]].
  destruct (m (proj s) w) as [[o t] w']. exists l. now split.
Qed.

Lemma effect_scoped {S T A} (obj : T) (dtor : M T unit) (body : M T A) :
  effect allowed dtor -> effect allowed body ->
  effect allowed (@scoped S T A obj dtor body).
Proof.
  intros Hd Hb s w. unfold scoped.
  destruct (Hb obj w) as [l [El Fl]].
  destruct (body obj w) as [[[a | e | | ] obj'] w']; cbn in El; subst w';
    try (exists l; split; [reflexivity | assumption]).
  all: destruct (Hd obj' (w ++ l)) as [l' [El' Fl']];
    destruct (dtor obj' (w ++ l)) as [[[u | e' | | ] obj''] w''];
    cbn in El'; subst w''; exists (l ++ l');
    (split; [cbn; now rewrite app_assoc | rewrite forallb_app; now rewrite Fl, Fl']).
Qed.

End effects.

Ltac effect_step :=
  first
    [ apply effect_mret | apply effect_throw | apply effect_undefined
    | apply effect_pure | apply effect_get | apply effect_modify
    | apply effect_of_option
    | apply effect_syscall; reflexivity
    | apply effect_mbind; [| intros ?]
    | apply effect_zoom
    | assumption
    | match goal with
      | |- effect _ (if ?b then _ else _) => destruct b
      | |- effect _ (match ?x with Some _ => _ | None => _ end) => destruct x
      end ].

Section quiet_methods.
Variable P : platform.

Lemma quiet_get_addr_info : effect no_accept (socket.get_addr_info P).
Proof. unfold socket.get_addr_info. repeat effect_step. Qed.

Lemma quiet_try_candidates :
  forall p : addrinfo, effect no_accept (socket.try_candidates P p).
Proof.
  fix IH 1. intros [fl fam typ proto len addr next].
  cbn [socket.try_candidates].
  apply effect_mbind; [effect_step | intros r].
  apply effect_mbind; [effect_step | intros _].
  destruct (ret r =? -1); [| effect_step].
  apply effect_mbind; [effect_step | intros _].
  destruct next as [q |]; [apply IH | effect_step].
Qed.

Lemma quiet_create_socket : effect no_accept (socket.create_socket P).
Proof.
  unfold socket.create_socket.
  repeat first [apply quiet_try_candidates | effect_step].
Qed.

Lemma quiet_bind (host : string) (port : Z) :
  effect no_accept (socket.bind P host port).
Proof.
  unfold socket.bind.
  repeat first [apply quiet_get_addr_info | apply quiet_create_socket | effect_step].
Qed.

Lemma quiet_listen (backlog : Z) : effect no_accept (socket.listen P backlog).
Proof. unfold socket.listen. repeat effect_step. Qed.

Lemma quiet_close : effect no_accept (socket.close P).
Proof. unfold socket.close. repeat effect_step. Qed.

Lemma quiet_receive (size : Z) : effect no_accept (socket.receive P size).
Proof.
  unfold socket.receive. repeat first [apply quiet_close | effect_step].
Qed.

Lemma quiet_send (message : list ascii) (len : Z) :
  effect no_accept (socket.send P message len).
Proof. unfold socket.send. repeat effect_step. Qed.

Lemma quiet_serve (cb : option server.callback) :
  quiet_callback cb -> effect no_accept (server.serve P cb).
Proof.
  intros Hcb. unfold server.serve, socket.send_string.
  apply effect_mbind; [apply quiet_receive | intros rcv].
  apply effect_mbind; [effect_step | intros cmd].
  apply effect_mbind; [effect_step | intros cmd'].
  apply effect_mbind; [apply quiet_send | intros _].
  destruct cb as [f |]; [now apply (Hcb f) | effect_step].
Qed.

End quiet_methods.

(** ** Counting connections *)

Lemma count_calls_app (n : call_name) (w l : trace) :
  count_calls n (w ++ l) = (count_calls n w + count_calls n l)%nat.
Proof. unfold count_calls. now rewrite filter_app, length_app. Qed.

Lemma count_quiet (l : trace) :
  forallb (fun e : event => no_accept (name_of (fst e))) l = true ->
  count_calls n_accept l = 0%nat.
Proof.
  unfold count_calls, no_accept.
  induction l as [| e l IH]; cbn; [reflexivity |].
  intros H. apply andb_true_iff in H. destruct H as [He Hl].
  destruct (call_name_eqb (name_of (fst e)) n_accept); [discriminate |].
  now apply IH.
Qed.

Lemma effect_count {S A} (m : M S A) (s : S) (w : trace) :
  effect no_accept m ->
  count_calls n_accept (trace_of (m s w)) = count_calls n_accept w.
Proof.
  intros H. destruct (H s w) as [l [-> Hl]].
  rewrite count_calls_app, (count_quiet l Hl). lia.
Qed.

Lemma effect_weaken {S A} (m : M S A) : effect no_accept m -> effect anything m.
Proof.
  intros H s w. destruct (H s w) as [l [E _]]. exists l. split; [exact E |].
  clear. induction l as [| e l IH]; [reflexivity | exact IH].
Qed.

Lemma scoped_state {S T A} (obj : T) (dtor : M T unit) (body : M T A)
    (s : S) (w : trace) :
  state_of (scoped obj dtor body s w) = s.
Proof.
  unfold scoped.
  destruct (body obj w) as [[[a | e | | ] obj'] w']; try reflexivity;
    destruct (dtor obj' w') as [[[u | e' | | ] obj''] w'']; reflexivity.
Qed.

Section run_facts.
Variable P : platform.

Lemma accept_counts (s s' : socket.t) (w w' : trace) (o : outcome socket.t) :
  socket.accept P s w = (o, s', w') ->
  s' = s /\
  (returned o = true ->
   count_calls n_accept w' = (count_calls n_accept w + 1)%nat).
Proof.
  unfold socket.accept. monad_unfold.
  destruct (ret (os P w _) =? -1).
  { intros H. injection H as <- <- <-. split; [reflexivity | discriminate]. }
  cbv beta iota zeta.
  destruct (negb (ret _ =? 0)).
  { intros H. injection H as <- <- <-. split; [reflexivity | discriminate]. }
  destruct (stoi _); intros H; injection H as <- <- <-;
    (split; [reflexivity |]); try discriminate.
  intros _. rewrite !count_calls_app. cbn. lia.
Qed.

Lemma process_counts (srv srv' : server.t) (w w' : trace) (o : outcome unit) :
  quiet_callback (server.callback_ srv) ->
  server.process P srv w = (o, srv', w') ->
  srv' = srv /\
  (returned o = true ->
   count_calls n_accept w' = (count_calls n_accept w + 1)%nat).
Proof.
  intros Hcb. unfold server.process.
  unfold mbind at 1. unfold server.on_socket, zoom.
  destruct (socket.accept P (server.socket_ srv) w) as [[oa sa] wa] eqn:A.
  apply accept_counts in A. destruct A as [-> Hn].
  rewrite set_socket_same.
  destruct oa as [client | e | | ];
    try (intros H; injection H as <- <- <-; split; [reflexivity | discriminate]).
  specialize (Hn eq_refl).
  unfold mbind at 1. unfold get at 1.
  intros H.
  pose proof (scoped_state client (socket.dtor P)
                (server.serve P (server.callback_ srv)) srv wa) as Hs.
  pose proof (effect_count
                (@scoped server.t _ _ client (socket.dtor P)
                   (server.serve P (server.callback_ srv))) srv wa) as Hc.
  rewrite H in Hs, Hc. unfold state_of, trace_of in Hs, Hc.
  cbn [fst snd] in Hs, Hc.
  split; [exact Hs |]. intros _. rewrite Hc; [exact Hn |].
  apply effect_scoped; [apply quiet_close | now apply quiet_serve].
Qed.

(** A [run] that returns found the server stopped, leaves it marked
    running, and has gone through exactly one [accept]. *)
Lemma run_returns (host : string) (port : Z) (srv srv1 : server.t)
    (w w1 : trace) :
  quiet_callback (server.callback_ srv) ->
  server.run P host port srv w = (Ok tt, srv1, w1) ->
  server.is_running_ srv = false /\
  server.is_running_ srv1 = true /\
  server.callback_ srv1 = server.callback_ srv /\
  count_calls n_accept w1 = (count_calls n_accept w + 1)%nat.
Proof.
  intros Hcb. unfold server.run.
  unfold mbind at 1. unfold get at 1.
  destruct (server.is_running_ srv) eqn:R; [discriminate |].
  unfold mbind at 1. unfold server.on_socket at 1. unfold zoom at 1.
  pose proof (effect_count (socket.bind P host port) (server.socket_ srv) w
                (quiet_bind P host port)) as Cb.
  destruct (socket.bind P host port (server.socket_ srv) w) as [[ob sb] wb].
  unfold trace_of in Cb. cbn [snd] in Cb. destruct ob; try discriminate.
  unfold mbind at 1. unfold server.on_socket at 1. unfold zoom at 1.
  cbn [server.socket_ server.set_socket].
  pose proof (effect_count (socket.listen P tools.BACKLOG) sb wb
                (quiet_listen P tools.BACKLOG)) as Cl.
  destruct (socket.listen P tools.BACKLOG sb wb) as [[ol sl] wl].
  unfold trace_of in Cl. cbn [snd] in Cl. destruct ol; try discriminate.
  unfold mbind at 1. unfold modify at 1.
  intros H. apply process_counts in H; [| exact Hcb].
  destruct H as [-> Hn]. cbn.
  repeat split. rewrite (Hn eq_refl). lia.
Qed.

Lemma stop_returns (srv srv2 : server.t) (w w2 : trace) :
  server.is_running_ srv = true ->
  server.stop P srv w = (Ok tt, srv2, w2) ->
  server.is_running_ srv2 = false /\
  socket.fd_ (server.socket_ srv2) = -1 /\
  server.callback_ srv2 = server.callback_ srv.
Proof.
  intros R. unfold server.stop.
  unfold mbind at 1. unfold get at 1. rewrite R. cbn [negb].
  unfold mbind at 1. unfold server.on_socket, zoom.
  destruct (close_cases P (server.socket_ srv) w) as [[Hfd E] | [[Hfd E] | [Hfd E]]];
    rewrite E; try discriminate;
    unfold modify; intros H; injection H as <- <-; cbn; repeat split.
  exact Hfd.
Qed.

Lemma bind_starts (host : string) (port : Z) (s : socket.t) (w : trace) :
  let c := sys_getaddrinfo host (to_string port) (AF_UNSPEC P) (SOCK_STREAM P) in
  exists l, trace_of (socket.bind P host port s w) = (w ++ [the c P w]) ++ l.
Proof.
  intros c. unfold socket.bind. cbv zeta.
  unfold mbind at 1. unfold modify at 1.
  unfold mbind at 1. unfold modify at 1.
  unfold mbind at 1. unfold socket.get_addr_info.
  unfold mbind at 1. unfold get at 1.
  unfold mbind at 1. unfold syscall at 1.
  cbn [socket.host_ socket.port_ socket.set_host socket.set_port]. fold c.
  match goal with
  | |- context [(if ?b then ?x else ?y) ?s0 ?w0] =>
      destruct ((if b then x else y) s0 w0) as [[og sg] wg] eqn:G
  end.
  assert (Hg : wg = w ++ [the c P w]).
  { revert G. monad_unfold. destruct (negb _); [| destruct (r_infos _)];
      intros G; injection G as _ _ <-; reflexivity. }
  subst wg.
  destruct og as [u | e | | ]; try (exists []; now rewrite app_nil_r).
  match goal with
  | |- context [trace_of (?k ?s0 ?w0)] =>
      assert (Hk : effect no_accept k)
        by repeat first [apply quiet_create_socket | effect_step];
      destruct (Hk s0 w0) as [l [El _]]
  end.
  exists l. exact El.
Qed.

Lemma process_extends (srv : server.t) (w : trace) :
  quiet_callback (server.callback_ srv) ->
  exists l, trace_of (server.process P srv w) = w ++ l.
Proof.
  intros Hcb. unfold server.process.
  unfold mbind at 1. unfold server.on_socket, zoom.
  assert (Ha : effect anything (socket.accept P))
    by (unfold socket.accept; repeat effect_step).
  destruct (Ha (server.socket_ srv) w) as [la [Ea _]].
  destruct (socket.accept P (server.socket_ srv) w) as [[oa sa] wa].
  unfold trace_of in Ea. cbn [snd] in Ea. subst wa.
  destruct oa as [client | e | | ]; try (now exists la).
  unfold mbind at 1. unfold get at 1.
  cbn [server.callback_ server.set_socket].
  assert (Hs : effect no_accept
            (@scoped server.t _ _ client (socket.dtor P)
               (server.serve P (server.callback_ srv))))
    by (apply effect_scoped; [apply quiet_close | now apply quiet_serve]).
  destruct (Hs (server.set_socket sa srv) (w ++ la)) as [l [El _]].
  exists (la ++ l). rewrite El. now rewrite app_assoc.
Qed.

(** Once past the guard, the first thing [run] does is resolve the
    address. *)
Lemma run_starts (host : string) (port : Z) (srv : server.t) (w : trace) :
  server.is_running_ srv = false ->
  quiet_callback (server.callback_ srv) ->
  let c := sys_getaddrinfo host (to_string port) (AF_UNSPEC P) (SOCK_STREAM P) in
  exists l, trace_of (server.run P host port srv w) = (w ++ [the c P w]) ++ l.
Proof.
  intros R Hcb c. unfold server.run.
  unfold mbind at 1. unfold get at 1. rewrite R.
  unfold mbind at 1. unfold server.on_socket at 1. unfold zoom at 1.
  destruct (bind_starts host port (server.socket_ srv) w) as [lb Eb].
  fold c in Eb.
  destruct (socket.bind P host port (server.socket_ srv) w) as [[ob sb] wb].
  unfold trace_of in Eb. cbn [snd] in Eb. subst wb.
  destruct ob; try (now exists lb).
  unfold mbind at 1. unfold server.on_socket at 1. unfold zoom at 1.
  cbn [server.socket_ server.set_socket].
  destruct (quiet_listen P tools.BACKLOG sb ((w ++ [the c P w]) ++ lb))
    as [ll [El _]].
  destruct (socket.listen P tools.BACKLOG sb _) as [[ol sl] wl].
  unfold trace_of in El. cbn [snd] in El. subst wl.
  destruct ol; try (exists (lb ++ ll); now rewrite app_assoc).
  unfold mbind at 1. unfold modify at 1.
  match goal with
  | |- context [server.process P ?s0 ?w0] =>
      destruct (process_extends s0 w0) as [lp Ep]; [exact Hcb |]
  end.
  exists (lb ++ ll ++ lp). rewrite Ep. now rewrite !app_assoc.
Qed.

(** C6, as the code has it.  A [run] that returns has served exactly one
    connection, with one [accept], and leaves the server marked running.
    Called again without a [stop] in between, [run] is refused with the
    already-running error before it calls the system at all.  After a
    [stop] that returns, the server is no longer marked running and [run]
    is not refused: it goes on to resolve the address. *)
Theorem run_once_then_refused (host : string) (port : Z)
    (srv srv1 : server.t) (w w1 : trace) :
  quiet_callback (server.callback_ srv) ->
  server.run P host port srv w = (Ok tt, srv1, w1) ->
  count_calls n_accept w1 = (count_calls n_accept w + 1)%nat /\
  server.is_running_ srv1 = true /\
  (forall host' port',
      server.run P host' port' srv1 w1 = (Throw already_running, srv1, w1)) /\
  (forall srv2 w2,
      server.stop P srv1 w1 = (Ok tt, srv2, w2) ->
      server.is_running_ srv2 = false /\
      forall host' port',
      exists l,
        trace_of (server.run P host' port' srv2 w2) =
          (w2 ++ [the (sys_getaddrinfo host' (to_string port')
                         (AF_UNSPEC P) (SOCK_STREAM P)) P w2]) ++ l).
Proof.
  intros Hcb Hrun.
  destruct (run_returns host port srv srv1 w w1 Hcb Hrun) as [_ [R1 [C1 N1]]].
  split; [exact N1 |]. split; [exact R1 |]. split.
  - intros host' port'. now apply run_guard.
  - intros srv2 w2 Hstop.
    destruct (stop_returns srv1 srv2 w1 w2 R1 Hstop) as [R2 [_ C2]].
    split; [exact R2 |].
    intros host' port'. apply run_starts; [exact R2 |].
    rewrite C2, C1. exact Hcb.
Qed.

End run_facts.

Lemma quiet_echo (P : platform) : quiet_callback (Some (echo P)).
Proof.
  intros f cmd H. injection H as <-. unfold echo. repeat effect_step.
Qed.

Lemma run_once_then_refused_witness :
  let P := sim ping [] in
  let srv := server.mk socket.ctor false (Some (echo P)) in
  let r := server.run P "127.0.0.1" 12345 srv [] in
  outcome_of r = Ok tt /\
  count_calls n_accept (trace_of r) = 1%nat /\
  server.run P "127.0.0.1" 12345 (state_of r) (trace_of r) =
    (Throw already_running, state_of r, trace_of r).
Proof.
  intros P srv r.
  assert (E : server.run P "127.0.0.1" 12345 srv [] =
              (Ok tt, state_of r, trace_of r)) by (vm_compute; reflexivity).
  destruct (run_once_then_refused P "127.0.0.1" 12345 srv (state_of r) []
              (trace_of r) (quiet_echo P) E) as [Hn [_ [Hg _]]].
  split; [reflexivity |]. split; [exact Hn |]. apply Hg.
Defined.

(** C6 as stated fails: [run] never clears the running mark, so a second
    [run] after the first has returned, with no [stop] in between, is
    refused with the already-running error. *)
Lemma second_run_refused :
  let P := sim ping [] in
  let srv := server.mk socket.ctor false (Some (echo P)) in
  let r := server.run P "127.0.0.1" 12345 srv [] in
  outcome_of r = Ok tt /\
  outcome_of (server.run P "127.0.0.1" 12345 (state_of r) (trace_of r)) =
    Throw already_running.
Proof. vm_compute. split; reflexivity. Qed.

(** ** The library functions, on examples *)

Example stoi_port : stoi "54321" = Ok 54321.
Proof. reflexivity. Qed.

Example stoi_signed_prefix : stoi "  -42abc" = Ok (-42).
Proof. reflexivity. Qed.

Example stoi_no_digits : thrown_kind (stoi "http") = Some invalid_argument.
Proof. reflexivity. Qed.

Example stoi_too_large : thrown_kind (stoi "4294967296") = Some out_of_range.
Proof. reflexivity. Qed.

Example to_string_port : to_string 12345 = "12345"%string.
Proof. reflexivity. Qed.

Example c_str_stops_at_NUL :
  c_str (chars "ab" ++ NUL :: chars "cd") = Some (chars "ab").
Proof. reflexivity. Qed.

Example c_str_overrun : c_str (chars "abcd") = None.
Proof. reflexivity. Qed.

Example wrap_minus_one : to_size_t (-1) = 2 ^ 64 - 1.
Proof. reflexivity. Qed.

(** ** Further properties of [tcp::socket] *)

Lemma count_except (n : call_name) (l : trace) :
  forallb (fun e : event => except n (name_of (fst e))) l = true ->
  count_calls n l = 0%nat.
Proof.
  unfold count_calls, except.
  induction l as [| e l IH]; cbn; [reflexivity |].
  intros H. apply andb_true_iff in H. destruct H as [He Hl].
  destruct (call_name_eqb (name_of (fst e)) n); [discriminate |].
  now apply IH.
Qed.

Lemma effect_except_count {S A} (n : call_name) (m : M S A) (s : S) (w : trace) :
  effect (except n) m ->
  count_calls n (trace_of (m s w)) = count_calls n w.
Proof.
  intros H. destruct (H s w) as [l [-> Hl]].
  rewrite count_calls_app, (count_except n l Hl). lia.
Qed.

Lemma count_calls_one (n : call_name) (c : call) (P : platform) (w : trace) :
  count_calls n [the c P w] = if call_name_eqb (name_of c) n then 1%nat else 0%nat.
Proof. unfold count_calls, the. cbn. now destruct (call_name_eqb _ _). Qed.

Section guards.
Variable P : platform.

(** Each guard of [tcp::socket] refuses with a [logic_error] and at once:
    [listen] on a socket that is not bound, [connect] on one that is, [send]
    and [receive] on one with no descriptor.  The socket is left as it was
    and the system is not called. *)
Theorem misuse_is_refused_at_once (s : socket.t) (w : trace)
    (backlog : Z) (host : string) (port : Z) (message : list ascii)
    (len size : Z) :
  (socket.is_socket_bound_ s = false ->
   let r := socket.listen P backlog s w in
   thrown_kind (outcome_of r) = Some logic_error /\ state_of r = s /\ trace_of r = w) /\
  (socket.is_socket_bound_ s = true ->
   let r := socket.connect P host port s w in
   thrown_kind (outcome_of r) = Some logic_error /\ state_of r = s /\ trace_of r = w) /\
  (socket.fd_ s = -1 ->
   let r := socket.send P message len s w in
   thrown_kind (outcome_of r) = Some logic_error /\ state_of r = s /\ trace_of r = w) /\
  (socket.fd_ s = -1 ->
   let r := socket.receive P size s w in
   thrown_kind (outcome_of r) = Some logic_error /\ state_of r = s /\ trace_of r = w).
Proof.
  repeat split.
  all: try (rewrite (listen_unbound P backlog s w) by assumption; reflexivity).
  all: try (rewrite (connect_bound P host port s w) by assumption; reflexivity).
  all: try (rewrite (send_unopened P message len s w) by assumption; reflexivity).
  all: rewrite (receive_unopened P size s w) by assumption; reflexivity.
Qed.

End guards.

Lemma misuse_is_refused_at_once_witness :
  thrown_kind (outcome_of (socket.listen (sim [] []) 30 socket.ctor [])) =
    Some logic_error /\
  thrown_kind (outcome_of (socket.connect (sim [] []) "127.0.0.1" 80 listening opened)) =
    Some logic_error /\
  trace_of (socket.send (sim [] []) ping 5 socket.ctor []) = [] /\
  state_of (socket.receive (sim [] []) 8 socket.ctor []) = socket.ctor.
Proof.
  destruct (misuse_is_refused_at_once (sim [] []) socket.ctor [] 30 "127.0.0.1" 80
              ping 5 8) as [Hl [_ [Hs Hr]]].
  destruct (misuse_is_refused_at_once (sim [] []) listening opened 30 "127.0.0.1" 80
              ping 5 8) as [_ [Hc _]].
  destruct (Hl eq_refl) as [Hl1 _].
  destruct (Hc eq_refl) as [Hc1 _].
  destruct (Hs eq_refl) as [_ [_ Hs3]].
  destruct (Hr eq_refl) as [_ [Hr2 _]].
  repeat split; assumption.
Defined.

(** *** Resolving and creating *)

Section creation.
Variable P : platform.

Lemma get_addr_info_frame (s s1 : socket.t) (w w1 : trace) (o : outcome unit) :
  socket.get_addr_info P s w = (o, s1, w1) ->
  socket.host_ s1 = socket.host_ s /\ socket.port_ s1 = socket.port_ s /\
  socket.v_addrinfo_ s1 = socket.v_addrinfo_ s.
Proof.
  unfold socket.get_addr_info. monad_unfold.
  destruct (negb (ret _ =? 0)).
  - intros H. injection H as <- <- <-. auto.
  - destruct (r_infos _); intros H; injection H as <- <- <-; auto.
Qed.

(** What the loop of [create_socket] leaves behind, by how it ended: with
    no descriptor after refusing every candidate of the chain, each refusal
    reported on standard error; or with a descriptor for one candidate of
    the chain, recorded as the valid address, after one report fewer than
    the sockets it asked for. *)
Lemma try_candidates_walk :
  forall (p : addrinfo) (s s1 : socket.t) (w w1 : trace) (o : outcome unit),
    socket.try_candidates P p s w = (o, s1, w1) ->
    socket.host_ s1 = socket.host_ s /\ socket.port_ s1 = socket.port_ s /\
    ((socket.fd_ s1 = -1 /\
      count_calls n_socket w1 = (count_calls n_socket w + List.length (candidates p))%nat /\
      count_calls n_cerr w1 = (count_calls n_cerr w + List.length (candidates p))%nat) \/
     (socket.fd_ s1 <> -1 /\
      In (socket.v_addrinfo_ s1) (candidates p) /\
      (count_calls n_socket w1 <= count_calls n_socket w + List.length (candidates p))%nat /\
      (count_calls n_socket w1 + count_calls n_cerr w =
       count_calls n_socket w + count_calls n_cerr w1 + 1)%nat)).
Proof.
  fix IH 1. intros [fl fam typ proto len addr next] s s1 w w1 o.
  cbn [socket.try_candidates candidates]. monad_unfold.
  destruct (Z.eqb_spec (ret (os P w (sys_socket fam typ proto))) (-1)) as [E | N].
  - destruct next as [q |].
    + intros H. apply IH in H.
      cbn [socket.host_ socket.port_ socket.fd_ socket.set_fd] in H.
      rewrite !count_calls_app, !count_calls_one in H.
      cbn [name_of call_name_eqb] in H.
      destruct H as [Hh [Hp [[Hfd [Hs Hc]] | [Hfd [Hin [Hs Hc]]]]]];
        (split; [exact Hh |]); (split; [exact Hp |]).
      * left. cbn [List.length]. split; [exact Hfd |]. split; lia.
      * right. cbn [List.length]. split; [exact Hfd |].
        split; [now right |]. split; lia.
    + intros H. injection H as <- <- <-.
      cbn [socket.host_ socket.port_ socket.fd_ socket.set_fd List.length].
      rewrite !count_calls_app, !count_calls_one.
      cbn [name_of call_name_eqb].
      split; [reflexivity |]. split; [reflexivity |].
      left. split; [exact E |]. split; lia.
  - intros H. injection H as <- <- <-.
    cbn [socket.host_ socket.port_ socket.fd_ socket.set_fd socket.set_v_addrinfo
         socket.v_addrinfo_ List.length].
    rewrite !count_calls_app, !count_calls_one.
    cbn [name_of call_name_eqb].
    split; [reflexivity |]. split; [reflexivity |].
    right. split; [exact N |]. split; [now left |]. split; lia.
Qed.

Lemma create_socket_open (s : socket.t) (w : trace) :
  socket.fd_ s <> -1 -> socket.create_socket P s w = (Ok tt, s, w).
Proof.
  intros H. unfold socket.create_socket. monad_unfold.
  apply Z.eqb_neq in H. now rewrite H.
Qed.

(** [create_socket] on a socket with no descriptor gives up only after the
    system has refused a socket for every candidate address of the chain,
    having reported each refusal on standard error; when it succeeds, the
    descriptor is open and the address recorded as valid is a candidate of
    the chain, reached after one report per candidate refused before it. *)
Theorem create_socket_tries_every_candidate (s s1 : socket.t) (w w1 : trace)
    (o : outcome unit) :
  socket.fd_ s = -1 ->
  socket.create_socket P s w = (o, s1, w1) ->
  let n := List.length (candidates (socket.addrinfo_ s)) in
  (o = Throw creation_failed /\ socket.fd_ s1 = -1 /\
   count_calls n_socket w1 = (count_calls n_socket w + n)%nat /\
   count_calls n_cerr w1 = (count_calls n_cerr w + n)%nat) \/
  (o = Ok tt /\ socket.fd_ s1 <> -1 /\
   In (socket.v_addrinfo_ s1) (candidates (socket.addrinfo_ s)) /\
   (count_calls n_socket w1 <= count_calls n_socket w + n)%nat /\
   (count_calls n_socket w1 + count_calls n_cerr w =
    count_calls n_socket w + count_calls n_cerr w1 + 1)%nat).
Proof.
  intros Hfd. unfold socket.create_socket.
  unfold mbind at 1. unfold get at 1.
  apply Z.eqb_eq in Hfd. rewrite Hfd. cbn [negb].
  unfold mbind at 1.
  destruct (socket.try_candidates P (socket.addrinfo_ s) s w) as [[o' s'] w'] eqn:T.
  pose proof (try_candidates_spec P _ _ _ _ _ _ T) as [-> _].
  apply try_candidates_walk in T.
  destruct T as [_ [_ [[Hc [Hs He]] | [Hc [Hin [Hs He]]]]]]; monad_unfold.
  - rewrite Hc. cbn. intros H. injection H as <- <- <-. left. auto.
  - apply Z.eqb_neq in Hc. rewrite Hc. intros H. injection H as <- <- <-.
    apply Z.eqb_neq in Hc. right. auto.
Qed.

End creation.

Lemma create_socket_tries_every_candidate_witness :
  let s := socket.set_addrinfo two_candidates socket.ctor in
  let r := socket.create_socket v4_only s [] in
  outcome_of r = Ok tt /\
  socket.v_addrinfo_ (state_of r) = loopback /\
  count_calls n_socket (trace_of r) = 2%nat /\
  count_calls n_cerr (trace_of r) = 1%nat /\
  outcome_of (socket.create_socket (sim [] [n_socket]) s []) = Throw creation_failed.
Proof.
  intros s r.
  assert (E : socket.create_socket v4_only s [] = (outcome_of r, state_of r, trace_of r))
    by reflexivity.
  destruct (create_socket_tries_every_candidate v4_only s _ [] _ _ eq_refl E)
    as [[Ho _] | [Ho _]]; [discriminate Ho |].
  assert (E' : socket.create_socket (sim [] [n_socket]) s [] =
               (outcome_of (socket.create_socket (sim [] [n_socket]) s []),
                state_of (socket.create_socket (sim [] [n_socket]) s []),
                trace_of (socket.create_socket (sim [] [n_socket]) s [])))
    by reflexivity.
  destruct (create_socket_tries_every_candidate (sim [] [n_socket]) s _ [] _ _ eq_refl E')
    as [[Ho' _] | [Ho' _]]; [| discriminate Ho'].
  split; [exact Ho |]. split; [reflexivity |]. split; [reflexivity |].
  split; [reflexivity | exact Ho'].
Defined.

(** *** [bind] and [connect] *)

Section naming.
Variable P : platform.

Lemma quiet_socket_get_addr_info :
  effect (except n_socket) (socket.get_addr_info P).
Proof. unfold socket.get_addr_info. repeat effect_step. Qed.

Lemma create_socket_frame (s s1 : socket.t) (w w1 : trace) (o : outcome unit) :
  socket.create_socket P s w = (o, s1, w1) ->
  socket.host_ s1 = socket.host_ s /\ socket.port_ s1 = socket.port_ s.
Proof.
  unfold socket.create_socket.
  unfold mbind at 1. unfold get at 1.
  destruct (negb (socket.fd_ s =? -1)).
  - monad_unfold. intros H. injection H as <- <- <-. auto.
  - unfold mbind at 1.
    destruct (socket.try_candidates P (socket.addrinfo_ s) s w) as [[o' s'] w'] eqn:T.
    pose proof (try_candidates_spec P _ _ _ _ _ _ T) as [-> _].
    apply try_candidates_walk in T. destruct T as [Hh [Hp _]].
    monad_unfold. destruct (socket.fd_ s' =? -1);
      intros H; injection H as <- <- <-; auto.
Qed.

(** [bind] writes the host and port it is given into the socket before
    anything else, so they are there however the call ends; and a [bind]
    that returns leaves the socket marked bound, with an open descriptor. *)
Theorem bind_records_address (host : string) (port : Z) (s s' : socket.t)
    (w w' : trace) (o : outcome unit) :
  socket.bind P host port s w = (o, s', w') ->
  socket.host_ s' = host /\ socket.port_ s' = port /\
  (returned o = true ->
   socket.is_socket_bound_ s' = true /\ socket.fd_ s' <> -1).
Proof.
  unfold socket.bind. cbv zeta.
  unfold mbind at 1. unfold modify at 1.
  unfold mbind at 1. unfold modify at 1.
  unfold mbind at 1.
  destruct (socket.get_addr_info P _ w) as [[o1 s1] w1] eqn:G.
  pose proof (get_addr_info_frame P _ _ _ _ _ G) as [Gh [Gp _]].
  apply get_addr_info_spec in G. cbn in Gh, Gp. destruct G as [_ [_ Go]].
  destruct Go as [-> | ->].
  2:{ intros H. injection H as <- <- <-.
      split; [exact Gh |]. split; [exact Gp | discriminate]. }
  unfold mbind at 1.
  destruct (socket.create_socket P s1 w1) as [[o2 s2] w2] eqn:C.
  pose proof (create_socket_frame _ _ _ _ _ C) as [Ch Cp].
  apply create_socket_spec in C. destruct C as [_ Co].
  destruct Co as [[-> Cfd] | [-> _]].
  2:{ intros H. injection H as <- <- <-.
      split; [congruence |]. split; [congruence | discriminate]. }
  monad_unfold.
  destruct (ret _ =? -1).
  { intros H. injection H as <- <- <-.
    split; [congruence |]. split; [congruence | discriminate]. }
  destruct (ret _ =? -1).
  { intros H. injection H as <- <- <-.
    split; [congruence |]. split; [congruence | discriminate]. }
  intros H. injection H as <- <- <-. cbn.
  split; [congruence |]. split; [congruence |]. intros _. split; [reflexivity | exact Cfd].
Qed.

(** [bind] on a socket that already holds a descriptor asks the system for
    no new socket: it goes on with the descriptor it has, and keeps it
    however the call ends. *)
Theorem bind_reuses_open_descriptor (host : string) (port : Z) (s s' : socket.t)
    (w w' : trace) (o : outcome unit) :
  socket.fd_ s <> -1 ->
  socket.bind P host port s w = (o, s', w') ->
  socket.fd_ s' = socket.fd_ s /\
  count_calls n_socket w' = count_calls n_socket w.
Proof.
  intros Hfd. unfold socket.bind. cbv zeta.
  unfold mbind at 1. unfold modify at 1.
  unfold mbind at 1. unfold modify at 1.
  unfold mbind at 1.
  pose proof (effect_except_count n_socket (socket.get_addr_info P)
                (socket.set_port port (socket.set_host host s)) w
                quiet_socket_get_addr_info) as Gc.
  destruct (socket.get_addr_info P _ w) as [[o1 s1] w1] eqn:G.
  unfold trace_of in Gc. cbn [snd] in Gc.
  apply get_addr_info_spec in G. cbn in G. destruct G as [Gfd [_ Go]].
  destruct Go as [-> | ->].
  2:{ intros H. injection H as <- <- <-. auto. }
  unfold mbind at 1.
  rewrite create_socket_open by congruence.
  monad_unfold.
  destruct (ret _ =? -1).
  { intros H. injection H as <- <- <-. split; [exact Gfd |].
    rewrite count_calls_app, count_calls_one. cbn. lia. }
  destruct (ret _ =? -1).
  { intros H. injection H as <- <- <-. split; [exact Gfd |].
    rewrite !count_calls_app, !count_calls_one. cbn. lia. }
  intros H. injection H as <- <- <-. split; [exact Gfd |].
  rewrite !count_calls_app, !count_calls_one. cbn. lia.
Qed.

(** [connect] on a socket that is not bound never marks it bound and
    records the host and port it is given however it ends.  When it
    returns, the socket holds an open descriptor; and it holds one as well
    when it is the system's [connect] that failed, since the descriptor
    created for the attempt is not closed. *)
Theorem connect_keeps_role (host : string) (port : Z) (s s' : socket.t)
    (w w' : trace) (o : outcome unit) :
  socket.is_socket_bound_ s = false ->
  socket.connect P host port s w = (o, s', w') ->
  socket.is_socket_bound_ s' = false /\
  socket.host_ s' = host /\ socket.port_ s' = port /\
  (returned o = true \/ o = Throw connect_failed -> socket.fd_ s' <> -1).
Proof.
  intros Hb. unfold socket.connect.
  unfold mbind at 1. unfold get at 1. rewrite Hb.
  unfold mbind at 1. unfold modify at 1.
  unfold mbind at 1. unfold modify at 1.
  unfold mbind at 1.
  destruct (socket.get_addr_info P _ w) as [[o1 s1] w1] eqn:G.
  pose proof (get_addr_info_frame P _ _ _ _ _ G) as [Gh [Gp _]].
  apply get_addr_info_spec in G. cbn in Gh, Gp, G. destruct G as [_ [Gb Go]].
  destruct Go as [-> | ->].
  2:{ intros H. injection H as <- <- <-.
      repeat split; try congruence. intros [H | H]; discriminate. }
  unfold mbind at 1.
  destruct (socket.create_socket P s1 w1) as [[o2 s2] w2] eqn:C.
  pose proof (create_socket_frame _ _ _ _ _ C) as [Ch Cp].
  apply create_socket_spec in C. destruct C as [Cb Co].
  destruct Co as [[-> Cfd] | [-> _]].
  2:{ intros H. injection H as <- <- <-.
      repeat split; try congruence. intros [H | H]; discriminate. }
  monad_unfold.
  destruct (ret _ =? -1); intros H; injection H as <- <- <-;
    repeat split; try congruence.
Qed.

End naming.

Lemma bind_records_address_witness :
  let r := socket.bind (sim [] []) "0.0.0.0" 8080 socket.ctor [] in
  outcome_of r = Ok tt /\
  socket.host_ (state_of r) = "0.0.0.0"%string /\ socket.port_ (state_of r) = 8080 /\
  socket.is_socket_bound_ (state_of r) = true /\ socket.fd_ (state_of r) <> -1.
Proof.
  intros r.
  assert (E : socket.bind (sim [] []) "0.0.0.0" 8080 socket.ctor [] =
              (outcome_of r, state_of r, trace_of r)) by reflexivity.
  destruct (bind_records_address (sim [] []) _ _ _ _ _ _ _ E) as [Hh [Hp Hok]].
  destruct (Hok eq_refl) as [Hb Hfd].
  split; [reflexivity |]. repeat split; assumption.
Defined.

Lemma bind_reuses_open_descriptor_witness :
  let r := socket.bind (sim [] []) "0.0.0.0" 8080 client4 opened in
  socket.fd_ (state_of r) = 4 /\ count_calls n_socket (trace_of r) = 1%nat.
Proof.
  intros r.
  assert (Hfd : socket.fd_ client4 <> -1) by discriminate.
  assert (E : socket.bind (sim [] []) "0.0.0.0" 8080 client4 opened =
              (outcome_of r, state_of r, trace_of r)) by reflexivity.
  exact (bind_reuses_open_descriptor (sim [] []) _ _ _ _ _ _ _ Hfd E).
Defined.

Lemma connect_keeps_role_witness :
  let r := socket.connect (sim [] [n_connect]) "127.0.0.1" 12345 socket.ctor [] in
  outcome_of r = Throw connect_failed /\
  socket.is_socket_bound_ (state_of r) = false /\
  socket.port_ (state_of r) = 12345 /\
  socket.fd_ (state_of r) <> -1.
Proof.
  intros r.
  assert (E : socket.connect (sim [] [n_connect]) "127.0.0.1" 12345 socket.ctor [] =
              (outcome_of r, state_of r, trace_of r)) by reflexivity.
  destruct (connect_keeps_role (sim [] [n_connect]) "127.0.0.1" 12345 socket.ctor
              _ [] _ _ eq_refl E)
    as [Hb [_ [Hp Hfd]]].
  split; [reflexivity |]. split; [exact Hb |]. split; [exact Hp |].
  apply Hfd. right. reflexivity.
Defined.

(** *** [listen] and [accept] *)

Section serving.
Variable P : platform.

(** On a bound socket [listen] makes one call to the system's [listen] and
    leaves the socket as it was; it writes to standard error once when the
    backlog is above [SOMAXCONN] and not at all otherwise. *)
Theorem listen_warns_only_above_limit (backlog : Z) (s : socket.t) (w : trace) :
  socket.is_socket_bound_ s = true ->
  let r := socket.listen P backlog s w in
  state_of r = s /\
  count_calls n_listen (trace_of r) = (count_calls n_listen w + 1)%nat /\
  count_calls n_cerr (trace_of r) =
    (count_calls n_cerr w +
     if (to_unsigned (SOMAXCONN P) <? backlog)%Z then 1 else 0)%nat.
Proof.
  intros Hb r. subst r. unfold socket.listen. monad_unfold. rewrite Hb.
  cbn [negb]. cbv beta iota zeta.
  destruct (to_unsigned (SOMAXCONN P) <? backlog); cbv beta iota zeta;
    match goal with
    | |- context [ret ?x =? -1] => destruct (ret x =? -1)
    end;
    unfold state_of, trace_of; cbn [fst snd];
    rewrite !count_calls_app, !count_calls_one; cbn [name_of call_name_eqb];
    repeat split; lia.
Qed.

Lemma accept_quiet_close : effect (except n_close) (socket.accept P).
Proof. unfold socket.accept. repeat effect_step. Qed.

(** [accept] leaves the listening socket as it was and makes exactly one
    call to the system's [accept], however it ends, and it never closes a
    descriptor.  So when the connection is accepted but the peer's name
    cannot be looked up, [accept] throws and the accepted descriptor stays
    open. *)
Theorem accept_never_closes (s : socket.t) (w : trace) :
  let r := socket.accept P s w in
  let a := os P w (sys_accept (socket.fd_ s)) in
  let w1 := w ++ [the (sys_accept (socket.fd_ s)) P w] in
  let g := sys_getnameinfo (r_addr a) (r_addrlen a)
             (Z.lor (NI_NUMERICHOST P) (NI_NUMERICSERV P)) in
  state_of r = s /\
  count_calls n_close (trace_of r) = count_calls n_close w /\
  (ret a = -1 -> outcome_of r = Throw accept_failed /\ trace_of r = w1) /\
  (ret a <> -1 -> ret (os P w1 g) <> 0 ->
   outcome_of r = Throw name_lookup_failed /\ trace_of r = w1 ++ [the g P w1]).
Proof.
  intros r a w1 g. subst r.
  split; [| split; [apply (effect_except_count n_close), accept_quiet_close |]].
  - unfold socket.accept. monad_unfold.
    destruct (ret (os P w _) =? -1); [reflexivity |]. cbv beta iota zeta.
    destruct (negb (ret _ =? 0)); [reflexivity |].
    destruct (stoi _); reflexivity.
  - subst a w1 g. split.
    + intros Ha. unfold socket.accept. monad_unfold.
      apply Z.eqb_eq in Ha. rewrite Ha. split; reflexivity.
    + intros Ha Hg. unfold socket.accept. monad_unfold.
      apply Z.eqb_neq in Ha, Hg. rewrite Ha. cbv beta iota zeta.
      rewrite Hg. split; reflexivity.
Qed.

End serving.

Lemma accept_never_closes_witness :
  let r := socket.accept (sim [] [n_getnameinfo]) listening opened in
  outcome_of r = Throw name_lookup_failed /\
  state_of r = listening /\
  count_calls n_close (trace_of r) = 0%nat /\
  trace_of r =
    opened ++
    [(sys_accept 3, mk_reply 4 None (chars "127.0.0.1:54321") 16 "" "" []);
     (sys_getnameinfo (chars "127.0.0.1:54321") 16 3, plain (-1))].
Proof.
  intros r.
  destruct (accept_never_closes (sim [] [n_getnameinfo]) listening opened)
    as [Hs [Hc [_ Hg]]].
  destruct Hg as [Ho Ht]; [discriminate | discriminate |].
  split; [exact Ho |]. split; [exact Hs |]. split; [exact Hc | exact Ht].
Defined.

Lemma listen_warns_only_above_limit_witness :
  count_calls n_cerr (trace_of (socket.listen (sim [] []) tools.BACKLOG listening opened))
    = 0%nat /\
  count_calls n_cerr (trace_of (socket.listen (sim [] []) 129 listening opened))
    = 1%nat.
Proof.
  destruct (listen_warns_only_above_limit (sim [] []) tools.BACKLOG listening opened
              eq_refl) as [_ [_ H30]].
  destruct (listen_warns_only_above_limit (sim [] []) 129 listening opened
              eq_refl) as [_ [_ H129]].
  split; [exact H30 | exact H129].
Defined.

(** *** [receive], and what is left of a socket afterwards *)

Lemma skipn_repeat {A} (x : A) (k n : nat) :
  skipn k (repeat x n) = repeat x (n - k).
Proof.
  revert n. induction k as [| k IH]; intros n.
  - now rewrite Nat.sub_0_r.
  - destruct n as [| n]; [reflexivity | apply IH].
Qed.

Section receiving.
Variable P : platform.

(** When the system delivers between one and [size] bytes, [receive]
    returns exactly those bytes, in order, followed by zero bytes up to
    [size]; the socket is left as it was. *)
Theorem receive_delivers (size : Z) (s : socket.t) (w : trace) :
  socket.fd_ s <> -1 ->
  let r := os P w (recv_call s size) in
  0 < ret r <= size ->
  size < 2 ^ 63 ->
  List.length (r_data r) = Z.to_nat (ret r) ->
  socket.receive P size s w =
    (Ok (r_data r ++ repeat NUL (Z.to_nat (size - ret r))), s,
     w ++ [the (recv_call s size) P w]).
Proof.
  intros Hfd r Hr Hsize Hlen.
  assert (Hs : to_size_t (ret r) = ret r).
  { unfold to_size_t. apply Z.mod_small. lia. }
  rewrite (receive_data P size s w Hfd).
  - fold r. unfold socket.recv_into.
    rewrite repeat_length, Hlen.
    replace (Nat.min (Z.to_nat (ret r)) (Nat.min (Z.to_nat size) (Z.to_nat (ret r))))
      with (Z.to_nat (ret r)) by lia.
    rewrite <- Hlen at 1. rewrite firstn_all, skipn_repeat.
    now replace (Z.to_nat size - Z.to_nat (ret r))%nat
      with (Z.to_nat (size - ret r)) by lia.
  - fold r. rewrite Hs. change (to_size_t (-1)) with (2 ^ 64 - 1). lia.
  - fold r. lia.
Qed.

(** Once a read has found the peer gone and closed the socket, the socket
    is unopened: the next [receive] and the next [send] on it are refused
    with a [logic_error] and do not reach the system. *)
Theorem closed_by_peer_then_refused (size : Z) (s : socket.t) (w : trace)
    (size' : Z) (message : list ascii) (len : Z) :
  socket.fd_ s <> -1 ->
  ret (os P w (recv_call s size)) = 0 ->
  let w1 := w ++ [the (recv_call s size) P w] in
  let w2 := w1 ++ [the peer_closed_notice P w1] in
  ret (os P w2 (sys_close (socket.fd_ s))) <> -1 ->
  let r := socket.receive P size s w in
  returned (outcome_of r) = true /\
  (let r' := socket.receive P size' (state_of r) (trace_of r) in
   thrown_kind (outcome_of r') = Some logic_error /\ trace_of r' = trace_of r) /\
  (let r' := socket.send P message len (state_of r) (trace_of r) in
   thrown_kind (outcome_of r') = Some logic_error /\ trace_of r' = trace_of r).
Proof.
  intros Hfd Hret w1 w2 Hclose r. subst r.
  rewrite (receive_zero P size s w Hfd) by now rewrite Hret.
  cbv zeta. fold w1. fold w2.
  rewrite (close_open_ok P s w2 Hfd Hclose).
  unfold outcome_of, state_of, trace_of. cbn [fst snd].
  split; [reflexivity |]. split.
  - rewrite receive_unopened by reflexivity. split; reflexivity.
  - rewrite send_unopened by reflexivity. split; reflexivity.
Qed.

End receiving.

Lemma receive_delivers_witness :
  socket.receive (sim ping []) 8 client4 [] =
    (Ok (ping ++ repeat NUL 3), client4,
     [(recv_call client4 8, mk_reply 5 None [] 0 "" "" ping)]).
Proof.
  apply (receive_delivers (sim ping []) 8 client4 []).
  - discriminate.
  - vm_compute. split; [reflexivity | discriminate].
  - reflexivity.
  - reflexivity.
Defined.

Lemma closed_by_peer_then_refused_witness :
  let r := socket.receive (sim [] []) 8 client4 [] in
  thrown_kind (outcome_of (socket.receive (sim [] []) 8 (state_of r) (trace_of r))) =
    Some logic_error /\
  thrown_kind (outcome_of (socket.send (sim [] []) ping 5 (state_of r) (trace_of r))) =
    Some logic_error.
Proof.
  intros r.
  destruct (closed_by_peer_then_refused (sim [] []) 8 client4 [] 8 ping 5)
    as [_ [[Hr _] [Hs _]]].
  - discriminate.
  - reflexivity.
  - discriminate.
  - split; [exact Hr | exact Hs].
Defined.

(** *** A bound socket stays bound *)

Section roles.
Variable P : platform.

Lemma bind_keeps_bound (host : string) (port : Z) (s : socket.t) (w : trace) :
  socket.is_socket_bound_ s = true ->
  socket.is_socket_bound_ (state_of (socket.bind P host port s w)) = true.
Proof.
  intros Hb. unfold socket.bind. cbv zeta.
  unfold mbind at 1. unfold modify at 1.
  unfold mbind at 1. unfold modify at 1.
  unfold mbind at 1.
  destruct (socket.get_addr_info P _ w) as [[o1 s1] w1] eqn:G.
  apply get_addr_info_spec in G. cbn in G. destruct G as [_ [Gb Go]].
  destruct Go as [-> | ->]; [| cbn; congruence].
  unfold mbind at 1.
  destruct (socket.create_socket P s1 w1) as [[o2 s2] w2] eqn:C.
  apply create_socket_spec in C. destruct C as [Cb Co].
  destruct Co as [[-> _] | [-> _]]; [| cbn; congruence].
  monad_unfold.
  destruct (ret _ =? -1); [cbn; congruence |].
  destruct (ret _ =? -1); [cbn; congruence | reflexivity].
Qed.

Lemma listen_state (backlog : Z) (s : socket.t) (w : trace) :
  state_of (socket.listen P backlog s w) = s.
Proof.
  unfold socket.listen. monad_unfold.
  destruct (negb (socket.is_socket_bound_ s)); [reflexivity |].
  destruct (to_unsigned (SOMAXCONN P) <? backlog); cbv beta iota zeta;
    match goal with
    | |- context [ret ?x =? -1] => destruct (ret x =? -1)
    end; reflexivity.
Qed.

Lemma accept_state (s : socket.t) (w : trace) :
  state_of (socket.accept P s w) = s.
Proof.
  unfold socket.accept. monad_unfold.
  destruct (ret (os P w _) =? -1); [reflexivity |]. cbv beta iota zeta.
  destruct (negb (ret _ =? 0)); [reflexivity |].
  destruct (stoi _); reflexivity.
Qed.

Lemma send_state (message : list ascii) (len : Z) (s : socket.t) (w : trace) :
  state_of (socket.send P message len s w) = s.
Proof.
  unfold socket.send. monad_unfold.
  destruct (socket.fd_ s =? -1); [reflexivity |].
  destruct (Z.of_nat (List.length message) <? len); [reflexivity |].
  cbv beta iota zeta.
  destruct (to_size_t _ =? to_size_t (-1)); reflexivity.
Qed.

Lemma close_keeps_bound (s : socket.t) (w : trace) :
  socket.is_socket_bound_ (state_of (socket.close P s w)) =
  socket.is_socket_bound_ s.
Proof.
  destruct (close_cases P s w) as [[_ E] | [[_ E] | [_ E]]]; now rewrite E.
Qed.

Lemma receive_keeps_bound (size : Z) (s : socket.t) (w : trace) :
  socket.is_socket_bound_ (state_of (socket.receive P size s w)) =
  socket.is_socket_bound_ s.
Proof.
  destruct (Z.eq_dec (socket.fd_ s) (-1)) as [E | Hfd].
  { now rewrite receive_unopened. }
  destruct (Z.eq_dec (to_size_t (ret (os P w (recv_call s size)))) (to_size_t (-1)))
    as [Hm | Hm].
  { now rewrite receive_failed. }
  destruct (Z.eq_dec (to_size_t (ret (os P w (recv_call s size)))) 0) as [Hz | Hz].
  - rewrite (receive_zero P size s w Hfd Hz). cbv zeta.
    match goal with
    | |- context [socket.close P s ?w2] =>
        pose proof (close_keeps_bound s w2) as Hc;
        destruct (socket.close P s w2) as [[[u | e | | ] s'] w']
    end; exact Hc.
  - now rewrite receive_data.
Qed.

Lemma invoke_keeps_bound (m : method) (s : socket.t) (w : trace) :
  socket.is_socket_bound_ s = true ->
  socket.is_socket_bound_ (fst (invoke P m s w)) = true.
Proof.
  intros Hb. destruct m; cbn [invoke fst].
  - now apply bind_keeps_bound.
  - now rewrite listen_state.
  - now rewrite accept_state.
  - now rewrite connect_bound.
  - now rewrite send_state.
  - now rewrite receive_keeps_bound.
  - now rewrite close_keeps_bound.
Qed.

(** No method of the socket ever clears the bound mark, [close] included.
    So whatever a caller does with a bound socket, in whatever order and
    however each call ends, the socket is still marked bound afterwards and
    [connect] on it is refused with a [logic_error] before it reaches the
    system. *)
Theorem bound_is_permanent (ms : list method) (s : socket.t) (w : trace)
    (host : string) (port : Z) :
  socket.is_socket_bound_ s = true ->
  let s' := fst (invoke_all P ms s w) in
  let w' := snd (invoke_all P ms s w) in
  socket.is_socket_bound_ s' = true /\
  thrown_kind (outcome_of (socket.connect P host port s' w')) = Some logic_error /\
  trace_of (socket.connect P host port s' w') = w'.
Proof.
  revert s w. induction ms as [| m ms IH]; intros s w Hb.
  - cbn [invoke_all fst snd]. rewrite connect_bound by assumption. auto.
  - cbn [invoke_all].
    pose proof (invoke_keeps_bound m s w Hb) as Hm.
    destruct (invoke P m s w) as [s1 w1]. cbn [fst] in Hm.
    exact (IH s1 w1 Hm).
Qed.

End roles.

Lemma bound_is_permanent_witness :
  let after := invoke_all (sim ping [])
                 [m_listen 30; m_accept; m_close; m_connect "127.0.0.1" 80;
                  m_receive 8; m_bind "0.0.0.0" 8080] listening opened in
  socket.fd_ (fst after) = 5 /\
  socket.is_socket_bound_ (fst after) = true /\
  thrown_kind (outcome_of (socket.connect (sim ping []) "127.0.0.1" 80
                             (fst after) (snd after))) = Some logic_error.
Proof.
  intros after.
  destruct (bound_is_permanent (sim ping [])
              [m_listen 30; m_accept; m_close; m_connect "127.0.0.1" 80;
               m_receive 8; m_bind "0.0.0.0" 8080] listening opened
              "127.0.0.1" 80 eq_refl) as [Hb [Hc _]].
  split; [reflexivity |]. split; [exact Hb | exact Hc].
Defined.

(** ** Further properties of [tcp::server] *)

Lemma c_str_app (l rest : list ascii) :
  no_NUL l -> c_str (l ++ NUL :: rest) = Some l.
Proof.
  unfold no_NUL. induction l as [| c l IH]; cbn; [reflexivity |].
  intros H. apply andb_true_iff in H. destruct H as [Hc Hl].
  destruct (is_NUL c); [discriminate |]. now rewrite IH.
Qed.

Lemma c_str_overrun_all (l : list ascii) : no_NUL l -> c_str l = None.
Proof.
  unfold no_NUL. induction l as [| c l IH]; cbn; [reflexivity |].
  intros H. apply andb_true_iff in H. destruct H as [Hc Hl].
  destruct (is_NUL c); [discriminate |]. now rewrite IH.
Qed.

Lemma c_str_zeros (n : nat) : (0 < n)%nat -> c_str (repeat NUL n) = Some [].
Proof. destruct n; [lia | reflexivity]. Qed.

Lemma erase_last_snoc (l : list ascii) (c : ascii) : erase_last (l ++ [c]) = Some l.
Proof.
  unfold erase_last. rewrite <- (removelast_last l c) at 2.
  destruct l; reflexivity.
Qed.

(** The buffer after a read that delivered [data], shorter than the buffer. *)
Lemma buffer_after_read (n : nat) (r : reply) :
  ret r = Z.of_nat (List.length (r_data r)) ->
  (List.length (r_data r) < n)%nat ->
  socket.recv_into (repeat NUL n) r =
    r_data r ++ NUL :: repeat NUL (n - List.length (r_data r) - 1).
Proof.
  intros Hr Hn. unfold socket.recv_into.
  rewrite repeat_length, Hr, Nat2Z.id.
  replace (Nat.min (List.length (r_data r)) (Nat.min n (List.length (r_data r))))
    with (List.length (r_data r)) by lia.
  rewrite firstn_all, skipn_repeat.
  destruct (n - List.length (r_data r))%nat as [| k] eqn:E; [lia |].
  cbn. now rewrite Nat.sub_0_r.
Qed.

Lemma buffer_after_full_read (n : nat) (r : reply) :
  ret r = Z.of_nat n ->
  List.length (r_data r) = n ->
  socket.recv_into (repeat NUL n) r = r_data r.
Proof.
  intros Hr Hn. unfold socket.recv_into.
  rewrite repeat_length, Hr, Nat2Z.id, Hn.
  replace (Nat.min n (Nat.min n n)) with n by lia.
  rewrite <- Hn at 1. rewrite firstn_all.
  rewrite skipn_all2 by (rewrite repeat_length; lia).
  apply app_nil_r.
Qed.

Section serving_a_client.
Variable P : platform.

(** [serve] on a message of at least one byte, free of NUL and shorter than
    the buffer: the last byte is dropped, the acknowledgement for the rest
    is sent, and if that did not fail the callback, if any, is called on the
    rest. *)
Lemma serve_command (cb : option server.callback) (client : socket.t) (w : trace)
    (body : list ascii) (c : ascii) :
  socket.fd_ client <> -1 ->
  let rc := recv_call client tools.BUFFER_SIZE in
  r_data (os P w rc) = body ++ [c] ->
  no_NUL (body ++ [c]) ->
  ret (os P w rc) = Z.of_nat (List.length (body ++ [c])) ->
  Z.of_nat (List.length (body ++ [c])) < tools.BUFFER_SIZE ->
  let w1 := w ++ [the rc P w] in
  let reply := acknowledgement (str body) in
  let sc := sys_send (socket.fd_ client) (chars reply)
              (Z.of_nat (String.length reply)) 0 in
  server.serve P cb client w =
    if to_size_t (ret (os P w1 sc)) =? to_size_t (-1)
    then (Throw send_failed, client, w1 ++ [the sc P w1])
    else match cb with
         | Some f => f (str body)
         | None => mret tt
         end client (w1 ++ [the sc P w1]).
Proof.
  intros Hfd rc Hdata Hnul Hret Hlen w1 reply sc.
  assert (Hpos : (0 < List.length (body ++ [c]))%nat)
    by (rewrite length_app; cbn; lia).
  unfold server.serve.
  unfold mbind at 1.
  rewrite (receive_data P tools.BUFFER_SIZE client w Hfd); fold rc.
  2:{ rewrite Hret. unfold to_size_t. rewrite Z.mod_small.
      - change ((-1) mod 2 ^ 64) with (2 ^ 64 - 1). unfold tools.BUFFER_SIZE in Hlen. lia.
      - unfold tools.BUFFER_SIZE in Hlen. lia. }
  2:{ rewrite Hret. unfold to_size_t. rewrite Z.mod_small.
      - lia.
      - unfold tools.BUFFER_SIZE in Hlen. lia. }
  assert (Hret' : ret (os P w rc) = Z.of_nat (List.length (r_data (os P w rc))))
    by (rewrite Hdata; exact Hret).
  assert (Hlt : (List.length (r_data (os P w rc)) < Z.to_nat tools.BUFFER_SIZE)%nat)
    by (rewrite Hdata; lia).
  rewrite (buffer_after_read _ _ Hret' Hlt).
  rewrite Hdata, c_str_app by exact Hnul.
  unfold mbind at 1. unfold of_option at 1. unfold mret at 1.
  unfold mbind at 1. unfold of_option at 1.
  rewrite erase_last_snoc. unfold mret at 1.
  cbv beta iota zeta.
  unfold mbind at 1.
  rewrite (send_string_open P _ client (w ++ [the rc P w]) Hfd).
  fold w1. fold (acknowledgement (str body)). fold reply. fold sc.
  destruct (to_size_t (ret (os P w1 sc)) =? to_size_t (-1)); reflexivity.
Qed.

(** [process] once the system has accepted a client and named it. *)
Lemma process_after_accept (srv : server.t) (w : trace) (port : Z) :
  let listener := server.socket_ srv in
  let a := os P w (sys_accept (socket.fd_ listener)) in
  let w1 := w ++ [the (sys_accept (socket.fd_ listener)) P w] in
  let g := sys_getnameinfo (r_addr a) (r_addrlen a)
             (Z.lor (NI_NUMERICHOST P) (NI_NUMERICSERV P)) in
  ret a <> -1 ->
  ret (os P w1 g) = 0 ->
  stoi (r_serv (os P w1 g)) = Ok port ->
  server.process P srv w =
    scoped (socket.ctor_fd (ret a) (r_host (os P w1 g)) (to_unsigned port))
      (socket.dtor P) (server.serve P (server.callback_ srv)) srv
      (w1 ++ [the g P w1]).
Proof.
  intros listener a w1 g Ha Hg Hp.
  unfold server.process.
  unfold mbind at 1. unfold server.on_socket, zoom.
  pose proof (accept_ok P listener w port Ha Hg Hp) as E.
  fold listener. rewrite E. fold a w1 g.
  unfold listener. rewrite set_socket_same.
  unfold mbind at 1. unfold get at 1. reflexivity.
Qed.

End serving_a_client.

Section an_accepted_client.
Variable P : platform.
Variable srv : server.t.
Variable w : trace.
Variable port : Z.

Let listener := server.socket_ srv.
Let a := os P w (sys_accept (socket.fd_ listener)).
Let w1 := w ++ [the (sys_accept (socket.fd_ listener)) P w].
Let g := sys_getnameinfo (r_addr a) (r_addrlen a)
           (Z.lor (NI_NUMERICHOST P) (NI_NUMERICSERV P)).
Let w2 := w1 ++ [the g P w1].
Let client := socket.ctor_fd (ret a) (r_host (os P w1 g)) (to_unsigned port).
Let rc := recv_call client tools.BUFFER_SIZE.
Let w3 := w2 ++ [the rc P w2].

Hypothesis accepted : ret a <> -1.
Hypothesis named : ret (os P w1 g) = 0.
Hypothesis numbered : stoi (r_serv (os P w1 g)) = Ok port.

(** Whatever the client sends, as long as it is at least one byte, holds no
    NUL and is shorter than the buffer, [process] drops its last byte,
    line feed or not, acknowledges what is left and hands that to the
    callback, if there is one; the client's destructor follows. *)
Theorem process_drops_last_byte (body : list ascii) (c : ascii) :
  r_data (os P w2 rc) = body ++ [c] ->
  no_NUL (body ++ [c]) ->
  ret (os P w2 rc) = Z.of_nat (List.length (body ++ [c])) ->
  Z.of_nat (List.length (body ++ [c])) < tools.BUFFER_SIZE ->
  let reply := acknowledgement (str body) in
  let sc := sys_send (ret a) (chars reply) (Z.of_nat (String.length reply)) 0 in
  0 <= ret (os P w3 sc) < 2 ^ 63 ->
  server.process P srv w =
    scoped client (socket.dtor P)
      match server.callback_ srv with
      | Some f => f (str body)
      | None => mret tt
      end srv (w3 ++ [the sc P w3]).
Proof.
  intros Hd Hn Hr Hl reply sc Hs.
  rewrite (process_after_accept P srv w port accepted named numbered).
  fold listener a w1 g w2 client.
  unfold scoped.
  rewrite (serve_command P _ client w2 body c accepted Hd Hn Hr Hl).
  fold rc w3 reply. change (socket.fd_ client) with (ret a). fold sc.
  assert (E : to_size_t (ret (os P w3 sc)) = ret (os P w3 sc)).
  { unfold to_size_t. apply Z.mod_small. lia. }
  rewrite E.
  destruct (Z.eqb_spec (ret (os P w3 sc)) (to_size_t (-1))) as [F | _];
    [| reflexivity].
  change (to_size_t (-1)) with (2 ^ 64 - 1) in F. lia.
Qed.

(** When sending the acknowledgement fails, the callback is not called,
    whichever it is: [process] closes the client and leaves with the send
    error. *)
Theorem reply_failure_skips_callback (body : list ascii) (c : ascii) :
  r_data (os P w2 rc) = body ++ [c] ->
  no_NUL (body ++ [c]) ->
  ret (os P w2 rc) = Z.of_nat (List.length (body ++ [c])) ->
  Z.of_nat (List.length (body ++ [c])) < tools.BUFFER_SIZE ->
  let reply := acknowledgement (str body) in
  let sc := sys_send (ret a) (chars reply) (Z.of_nat (String.length reply)) 0 in
  let w4 := w3 ++ [the sc P w3] in
  ret (os P w3 sc) = -1 ->
  ret (os P w4 (sys_close (ret a))) <> -1 ->
  server.process P srv w =
    (Throw send_failed, srv, w4 ++ [the (sys_close (ret a)) P w4]).
Proof.
  intros Hd Hn Hr Hl reply sc w4 Hs Hc.
  rewrite (process_after_accept P srv w port accepted named numbered).
  fold listener a w1 g w2 client.
  unfold scoped.
  rewrite (serve_command P _ client w2 body c accepted Hd Hn Hr Hl).
  fold rc w3 reply. change (socket.fd_ client) with (ret a). fold sc.
  rewrite Hs. change (to_size_t (-1) =? to_size_t (-1)) with true.
  cbv beta iota. fold w4. unfold socket.dtor.
  rewrite (close_open_ok P client w4 accepted Hc). reflexivity.
Qed.

(** With no callback registered [process] still acknowledges the command,
    and then closes the client as it goes out of scope.  If that close
    fails, the exception leaves a destructor and the program is
    terminated. *)
Theorem process_without_callback (body : list ascii) (c : ascii) :
  server.callback_ srv = None ->
  r_data (os P w2 rc) = body ++ [c] ->
  no_NUL (body ++ [c]) ->
  ret (os P w2 rc) = Z.of_nat (List.length (body ++ [c])) ->
  Z.of_nat (List.length (body ++ [c])) < tools.BUFFER_SIZE ->
  let reply := acknowledgement (str body) in
  let sc := sys_send (ret a) (chars reply) (Z.of_nat (String.length reply)) 0 in
  let w4 := w3 ++ [the sc P w3] in
  0 <= ret (os P w3 sc) < 2 ^ 63 ->
  server.process P srv w =
    (if ret (os P w4 (sys_close (ret a))) =? -1 then Terminate else Ok tt,
     srv, w4 ++ [the (sys_close (ret a)) P w4]).
Proof.
  intros Hcb Hd Hn Hr Hl reply sc w4 Hs.
  rewrite (process_after_accept P srv w port accepted named numbered).
  fold listener a w1 g w2 client.
  unfold scoped.
  rewrite (serve_command P _ client w2 body c accepted Hd Hn Hr Hl).
  fold rc w3 reply. change (socket.fd_ client) with (ret a). fold sc.
  assert (E : to_size_t (ret (os P w3 sc)) = ret (os P w3 sc)).
  { unfold to_size_t. apply Z.mod_small. lia. }
  rewrite E.
  destruct (Z.eqb_spec (ret (os P w3 sc)) (to_size_t (-1))) as [F | _].
  { change (to_size_t (-1)) with (2 ^ 64 - 1) in F. lia. }
  rewrite Hcb. unfold mret at 1. fold w4. unfold socket.dtor.
  destruct (Z.eqb_spec (ret (os P w4 (sys_close (ret a)))) (-1)) as [F | N].
  - now rewrite (close_open_fail P client w4 accepted F).
  - now rewrite (close_open_ok P client w4 accepted N).
Qed.

(** When the client has closed without sending anything, [process] reads
    no byte, so the command is empty and erasing its last character is
    undefined. *)
Theorem process_empty_read_undefined :
  ret (os P w2 rc) = 0 ->
  let w4 := w3 ++ [the peer_closed_notice P w3] in
  ret (os P w4 (sys_close (ret a))) <> -1 ->
  outcome_of (server.process P srv w) = Undefined.
Proof.
  intros Hr w4 Hc.
  rewrite (process_after_accept P srv w port accepted named numbered).
  fold listener a w1 g w2 client.
  unfold scoped, server.serve.
  unfold mbind at 1.
  rewrite (receive_zero P tools.BUFFER_SIZE client w2 accepted)
    by (fold rc; now rewrite Hr).
  cbv zeta. fold rc w3 w4.
  rewrite (close_open_ok P client w4 accepted Hc).
  rewrite recv_into_nothing by exact Hr.
  rewrite c_str_zeros by (unfold tools.BUFFER_SIZE; lia).
  reflexivity.
Qed.

(** When the client's message fills the whole buffer and holds no NUL,
    building the command reads past the end of the buffer, which is
    undefined. *)
Theorem process_full_buffer_undefined :
  ret (os P w2 rc) = tools.BUFFER_SIZE ->
  List.length (r_data (os P w2 rc)) = Z.to_nat tools.BUFFER_SIZE ->
  no_NUL (r_data (os P w2 rc)) ->
  outcome_of (server.process P srv w) = Undefined.
Proof.
  intros Hr Hl Hn.
  rewrite (process_after_accept P srv w port accepted named numbered).
  fold listener a w1 g w2 client.
  unfold scoped, server.serve.
  unfold mbind at 1.
  rewrite (receive_data P tools.BUFFER_SIZE client w2 accepted);
    fold rc; try (rewrite Hr; discriminate).
  rewrite buffer_after_full_read;
    [| rewrite Hr; unfold tools.BUFFER_SIZE; lia | exact Hl].
  rewrite (c_str_overrun_all _ Hn).
  reflexivity.
Qed.

End an_accepted_client.

(** Settle a closed goal by running the code. *)
Ltac evaluate :=
  vm_compute;
  first [ reflexivity | discriminate
        | split; first [ reflexivity | discriminate ] | repeat split ].

Lemma process_drops_last_byte_witness :
  let P := sim (chars "PING") [] in
  let srv := server.mk listening true (Some (echo P)) in
  server.process P srv opened =
    (Ok tt, srv,
     opened ++
     [(sys_accept 3, mk_reply 4 None (chars "127.0.0.1:54321") 16 "" "" []);
      (sys_getnameinfo (chars "127.0.0.1:54321") 16 3,
       mk_reply 0 None [] 0 "127.0.0.1" "54321" []);
      (sys_recv 4 8096 0, mk_reply 4 None [] 0 "" "" (chars "PING"));
      (sys_send 4 (chars (acknowledgement "PIN")) 28 0, plain 28);
      (std_cout "PIN", plain 0);
      (sys_close 4, plain 0)]).
Proof.
  intros P srv.
  rewrite (process_drops_last_byte P srv opened 54321) with
    (body := chars "PIN") (c := "G"%char).
  all: evaluate.
Defined.

Lemma reply_failure_skips_callback_witness :
  let P := sim ping [n_send] in
  let srv := server.mk listening true (Some (echo P)) in
  outcome_of (server.process P srv opened) = Throw send_failed /\
  count_calls n_cout (trace_of (server.process P srv opened)) = 0%nat /\
  count_calls n_close (trace_of (server.process P srv opened)) = 1%nat.
Proof.
  intros P srv.
  rewrite (reply_failure_skips_callback P srv opened 54321) with
    (body := chars "PING") (c := LF).
  all: evaluate.
Defined.

Lemma process_without_callback_witness :
  let srv := server.mk listening true None in
  outcome_of (server.process (sim ping []) srv opened) = Ok tt /\
  outcome_of (server.process (sim ping [n_close]) srv opened) = Terminate.
Proof.
  intros srv. split.
  - rewrite (process_without_callback (sim ping []) srv opened 54321) with
      (body := chars "PING") (c := LF).
    all: evaluate.
  - rewrite (process_without_callback (sim ping [n_close]) srv opened 54321) with
      (body := chars "PING") (c := LF).
    all: evaluate.
Defined.

Lemma process_empty_read_undefined_witness :
  let P := sim [] [] in
  outcome_of (server.process P (server.mk listening true (Some (echo P))) opened) =
    Undefined.
Proof.
  intros P.
  apply (process_empty_read_undefined P _ opened 54321).
  all: evaluate.
Defined.

Lemma process_full_buffer_undefined_witness :
  let P := sim flood [] in
  outcome_of (server.process P (server.mk listening true (Some (echo P))) opened) =
    Undefined.
Proof.
  intros P.
  apply (process_full_buffer_undefined P _ opened 54321).
  all: evaluate.
Defined.

(** *** [run] and [stop] *)

Section lifecycle.
Variable P : platform.

Lemma accept_always_counts (s : socket.t) (w : trace) :
  count_calls n_accept (trace_of (socket.accept P s w)) =
    (count_calls n_accept w + 1)%nat.
Proof.
  unfold socket.accept. monad_unfold.
  destruct (ret (os P w _) =? -1).
  { unfold trace_of. cbn [snd]. rewrite count_calls_app, count_calls_one. reflexivity. }
  cbv beta iota zeta.
  destruct (negb (ret _ =? 0)); [| destruct (stoi _)];
    unfold trace_of; cbn [snd];
    rewrite !count_calls_app, !count_calls_one; cbn [name_of call_name_eqb]; lia.
Qed.

Lemma process_always_counts (srv : server.t) (w : trace) :
  quiet_callback (server.callback_ srv) ->
  state_of (server.process P srv w) = srv /\
  count_calls n_accept (trace_of (server.process P srv w)) =
    (count_calls n_accept w + 1)%nat.
Proof.
  intros Hcb. unfold server.process, mbind, server.on_socket, zoom, get.
  pose proof (accept_always_counts (server.socket_ srv) w) as Hn.
  pose proof (accept_state P (server.socket_ srv) w) as Hs.
  destruct (socket.accept P (server.socket_ srv) w) as [[oa sa] wa].
  unfold trace_of, state_of in Hn, Hs. cbn [fst snd] in Hn, Hs. subst sa.
  rewrite set_socket_same.
  destruct oa as [client | e | | ]; try (split; [reflexivity | exact Hn]).
  split; [apply scoped_state |].
  rewrite (effect_count
             (@scoped server.t _ _ client (socket.dtor P)
                (server.serve P (server.callback_ srv))) srv wa); [exact Hn |].
  apply effect_scoped; [apply quiet_close | now apply quiet_serve].
Qed.

(** [run] on a server that is not running goes through [bind], [listen]
    and [process] in that order and marks the server running between the
    last two.  If [bind] does not return, [run] ends as [bind] did, with
    its exception and its history: [listen] and [accept] are not called and
    the server is not marked running.  If [bind] returns and [listen] does
    not, [run] ends as [listen] did, again with no [accept] and the server
    not marked running, so in both cases [run] may be called again.  If
    both return, [run] is [process] on the server marked running, one
    [accept] is made, and the server is left marked running. *)
Theorem run_marks_running_when_accepting (host : string) (port : Z)
    (srv : server.t) (w : trace) :
  server.is_running_ srv = false ->
  quiet_callback (server.callback_ srv) ->
  let r := server.run P host port srv w in
  let rb := socket.bind P host port (server.socket_ srv) w in
  let rl := socket.listen P tools.BACKLOG (state_of rb) (trace_of rb) in
  let bound := server.set_socket (state_of rb) srv in
  let listening := server.set_socket (state_of rl) bound in
  (returned (outcome_of rb) = false ->
   r = (outcome_of rb, bound, trace_of rb) /\
   server.is_running_ (state_of r) = false /\
   count_calls n_accept (trace_of r) = count_calls n_accept w) /\
  (returned (outcome_of rb) = true -> returned (outcome_of rl) = false ->
   r = (outcome_of rl, listening, trace_of rl) /\
   server.is_running_ (state_of r) = false /\
   count_calls n_accept (trace_of r) = count_calls n_accept w) /\
  (returned (outcome_of rb) = true -> returned (outcome_of rl) = true ->
   r = server.process P (server.set_is_running true listening) (trace_of rl) /\
   server.is_running_ (state_of r) = true /\
   count_calls n_accept (trace_of r) = (count_calls n_accept w + 1)%nat).
Proof.
  intros R Hcb r rb rl bound listening. subst r listening bound rl rb.
  unfold server.run, mbind, get, server.on_socket, zoom, modify. rewrite R.
  pose proof (effect_count (socket.bind P host port) (server.socket_ srv) w
                (quiet_bind P host port)) as Cb.
  destruct (socket.bind P host port (server.socket_ srv) w) as [[ob sb] wb].
  unfold state_of, trace_of, outcome_of in *. cbn [fst snd] in *.
  destruct ob as [[] | e | | ]; cbn [returned].
  2-4: (split; [intros _; split; [reflexivity | split; [exact R | exact Cb]] |];
        split; intros; discriminate).
  split; [intros; discriminate |].
  cbn [server.socket_ server.set_socket].
  pose proof (effect_count (socket.listen P tools.BACKLOG) sb wb
                (quiet_listen P tools.BACKLOG)) as Cl.
  destruct (socket.listen P tools.BACKLOG sb wb) as [[ol sl] wl].
  unfold trace_of in Cl. cbn [fst snd] in *.
  destruct ol as [[] | e | | ]; cbn [returned].
  2-4: (split; [intros _ _; split; [reflexivity | split; [exact R |]] |];
        [etransitivity; [exact Cl | exact Cb] | intros; discriminate]).
  split; [intros; discriminate |]. intros _ _.
  split; [reflexivity |].
  match goal with
  | |- context [server.process P ?s0 ?w0] =>
      destruct (process_always_counts s0 w0) as [Hs Hn]; [exact Hcb |]
  end.
  unfold state_of, trace_of in Hs, Hn.
  rewrite Hs, Hn. split; [reflexivity | lia].
Qed.

(** [stop] on a server that is not running does nothing at all.  On a
    running server it closes the listening socket: when that succeeds the
    server is no longer marked running, its descriptor is unopened, and a
    second [stop] does nothing; when the close fails, [stop] leaves with
    the close error and the server exactly as it was, still marked
    running. *)
Theorem stop_twice (srv : server.t) (w : trace) :
  let r := server.stop P srv w in
  (server.is_running_ srv = false -> r = (Ok tt, srv, w)) /\
  (returned (outcome_of r) = true ->
   server.is_running_ (state_of r) = false /\
   server.stop P (state_of r) (trace_of r) = (Ok tt, state_of r, trace_of r)) /\
  (server.is_running_ srv = true -> returned (outcome_of r) = true ->
   socket.fd_ (server.socket_ (state_of r)) = -1) /\
  (returned (outcome_of r) = false ->
   state_of r = srv /\ server.is_running_ srv = true /\
   thrown_kind (outcome_of r) = Some runtime_error).
Proof.
  intros r. subst r.
  unfold server.stop, mbind, get, server.on_socket, zoom, modify, mret.
  destruct (server.is_running_ srv) eqn:R; cbn [negb].
  2:{ unfold state_of, trace_of, outcome_of. cbn [fst snd returned].
      rewrite R. cbn [negb]. repeat split; discriminate. }
  destruct (close_cases P (server.socket_ srv) w) as [[Hfd E] | [[Hfd E] | [Hfd E]]];
    rewrite E; unfold state_of, trace_of, outcome_of;
    cbn [fst snd returned thrown_kind kind server.is_running_ server.set_is_running
         server.set_socket server.socket_ socket.fd_ socket.set_fd negb];
    repeat split; intros; try discriminate; try assumption;
    apply set_socket_same.
Qed.

End lifecycle.

Lemma run_marks_running_when_accepting_witness :
  let srv := server.mk socket.ctor false (Some (echo (sim ping []))) in
  let unbound := server.run (sim ping [n_bind]) "127.0.0.1" 12345 srv [] in
  let deaf := server.run (sim ping [n_listen]) "127.0.0.1" 12345 srv [] in
  let served := server.run (sim ping []) "127.0.0.1" 12345 srv [] in
  (outcome_of unbound = Throw bind_failed /\
   server.is_running_ (state_of unbound) = false /\
   count_calls n_listen (trace_of unbound) = 0%nat /\
   count_calls n_accept (trace_of unbound) = 0%nat) /\
  (outcome_of deaf = Throw listen_failed /\
   server.is_running_ (state_of deaf) = false /\
   count_calls n_listen (trace_of deaf) = 1%nat /\
   count_calls n_accept (trace_of deaf) = 0%nat) /\
  (outcome_of served = Ok tt /\
   server.is_running_ (state_of served) = true /\
   count_calls n_accept (trace_of served) = 1%nat).
Proof.
  intros srv unbound deaf served.
  destruct (run_marks_running_when_accepting (sim ping [n_bind]) "127.0.0.1" 12345
              srv [] eq_refl (quiet_echo (sim ping []))) as [Hb _].
  destruct (Hb eq_refl) as [Eb [Rb Nb]].
  destruct (run_marks_running_when_accepting (sim ping [n_listen]) "127.0.0.1" 12345
              srv [] eq_refl (quiet_echo (sim ping []))) as [_ [Hl _]].
  destruct (Hl eq_refl eq_refl) as [El [Rl Nl]].
  destruct (run_marks_running_when_accepting (sim ping []) "127.0.0.1" 12345
              srv [] eq_refl (quiet_echo (sim ping []))) as [_ [_ Hs]].
  destruct (Hs eq_refl eq_refl) as [Es [Rs Ns]].
  split; [| split].
  - split; [unfold unbound; rewrite Eb; reflexivity |].
    split; [exact Rb |]. split; [reflexivity | exact Nb].
  - split; [unfold deaf; rewrite El; reflexivity |].
    split; [exact Rl |]. split; [reflexivity | exact Nl].
  - split; [reflexivity |]. split; [exact Rs | exact Ns].
Defined.

Lemma stop_twice_witness :
  let srv := server.mk listening true None in
  server.stop (sim [] []) srv opened =
    (Ok tt, server.mk (socket.set_fd (-1) listening) false None,
     opened ++ [(sys_close 3, plain 0)]) /\
  server.stop (sim [] []) (server.mk (socket.set_fd (-1) listening) false None)
    (opened ++ [(sys_close 3, plain 0)]) =
    (Ok tt, server.mk (socket.set_fd (-1) listening) false None,
     opened ++ [(sys_close 3, plain 0)]) /\
  state_of (server.stop (sim [] [n_close]) srv opened) = srv.
Proof.
  intros srv.
  destruct (stop_twice (sim [] []) srv opened) as [_ [Hok _]].
  destruct (Hok eq_refl) as [_ Hagain].
  destruct (stop_twice (sim [] [n_close]) srv opened) as [_ [_ [_ Hfail]]].
  destruct (Hfail eq_refl) as [Hsame _].
  split; [reflexivity |]. split; [exact Hagain | exact Hsame].
Defined.

(** ** Edges of the socket's guards *)

Section edges.
Variable P : platform.

(** The guard of [listen] looks at the bound mark alone, and [close] does
    not clear it.  So on a socket that was bound and has been closed,
    [listen] is not refused: it calls the system's [listen] with the
    descriptor [-1]. *)
Theorem listen_after_close (backlog : Z) (s : socket.t) (w : trace) :
  socket.is_socket_bound_ s = true ->
  socket.fd_ s <> -1 ->
  ret (os P w (sys_close (socket.fd_ s))) <> -1 ->
  let r := socket.close P s w in
  outcome_of r = Ok tt /\
  exists w',
    trace_of (socket.listen P backlog (state_of r) (trace_of r)) =
      w' ++ [the (sys_listen (-1) (to_int backlog)) P w'].
Proof.
  intros Hb Hfd Hc r. subst r.
  rewrite (close_open_ok P s w Hfd Hc).
  unfold outcome_of, state_of, trace_of. cbn [fst snd].
  split; [reflexivity |].
  unfold socket.listen. monad_unfold.
  cbn [socket.is_socket_bound_ socket.set_fd socket.fd_]. rewrite Hb.
  cbn [negb]. cbv beta iota zeta.
  destruct (to_unsigned (SOMAXCONN P) <? backlog); cbv beta iota zeta;
    match goal with
    | |- context [ret ?x =? -1] => destruct (ret x =? -1)
    end; cbn [snd]; eexists; reflexivity.
Qed.

(** [send] of a string always hands the system the string's own bytes and
    length, so it never reads past them; [send] of a vector with a length
    beyond the vector's size reads past its storage, which is undefined. *)
Theorem send_lengths (text : string) (message : list ascii) (len : Z)
    (s : socket.t) (w : trace) :
  socket.fd_ s <> -1 ->
  (let r := socket.send_string P text s w in
   outcome_of r <> Undefined /\
   trace_of r =
     w ++ [the (sys_send (socket.fd_ s) (chars text)
                  (Z.of_nat (String.length text)) 0) P w]) /\
  (Z.of_nat (List.length message) < len ->
   socket.send P message len s w = (Undefined, s, w)).
Proof.
  intros Hfd. split.
  - rewrite (send_string_open P text s w Hfd).
    unfold outcome_of, trace_of. cbn [fst snd].
    split; [| reflexivity].
    destruct (to_size_t _ =? to_size_t (-1)); discriminate.
  - intros Hlen. unfold socket.send. monad_unfold.
    apply Z.eqb_neq in Hfd. rewrite Hfd.
    apply Z.ltb_lt in Hlen. now rewrite Hlen.
Qed.

(** Asking [receive] for no bytes at all closes the socket: the system can
    only answer that it read none, which [receive] takes for the peer
    having gone. *)
Theorem receive_of_nothing_closes (s : socket.t) (w : trace) :
  socket.fd_ s <> -1 ->
  0 <= ret (os P w (recv_call s 0)) <= 0 ->
  let w1 := w ++ [the (recv_call s 0) P w] in
  let w2 := w1 ++ [the peer_closed_notice P w1] in
  ret (os P w2 (sys_close (socket.fd_ s))) <> -1 ->
  socket.receive P 0 s w =
    (Ok [], socket.set_fd (-1) s, w2 ++ [the (sys_close (socket.fd_ s)) P w2]).
Proof.
  intros Hfd Hret w1 w2 Hclose.
  assert (Hz : ret (os P w (recv_call s 0)) = 0) by lia.
  rewrite (receive_zero P 0 s w Hfd) by now rewrite Hz.
  cbv zeta. fold w1. fold w2.
  rewrite (close_open_ok P s w2 Hfd Hclose).
  now rewrite recv_into_nothing.
Qed.

End edges.

Lemma listen_after_close_witness :
  let r := socket.close (sim [] []) listening opened in
  socket.fd_ (state_of r) = -1 /\
  trace_of (socket.listen (sim [] []) 30 (state_of r) (trace_of r)) =
    opened ++ [(sys_close 3, plain 0); (sys_listen (-1) 30, plain 0)].
Proof.
  intros r.
  destruct (listen_after_close (sim [] []) 30 listening opened) as [_ [w' _]].
  - reflexivity.
  - discriminate.
  - discriminate.
  - split; reflexivity.
Defined.

Lemma send_lengths_witness :
  trace_of (socket.send_string (sim [] []) "PING" client4 []) =
    [(sys_send 4 (chars "PING") 4 0, plain 4)] /\
  socket.send (sim [] []) (chars "PING") 5 client4 [] = (Undefined, client4, []).
Proof.
  destruct (send_lengths (sim [] []) "PING" (chars "PING") 5 client4 [])
    as [[_ Ht] Hu].
  - discriminate.
  - split; [exact Ht | apply Hu; reflexivity].
Defined.

Lemma receive_of_nothing_closes_witness :
  socket.receive (sim ping []) 0 client4 [] =
    (Ok [], socket.ctor_fd (-1) "127.0.0.1" 54321,
     [(recv_call client4 0, plain 0); (peer_closed_notice, plain 0);
      (sys_close 4, plain 0)]).
Proof.
  apply (receive_of_nothing_closes (sim ping []) client4 []).
  - discriminate.
  - vm_compute. split; discriminate.
  - discriminate.
Defined.
